(** * Gibraltar customs tariff exporter: hierarchy extraction and aggregation

    A shallow embedding of [export_gibraltar_tariff.py].

    Python [str] values are modelled as [string]: a sequence of 8-bit
    characters, read as the code points U+0000..U+00FF.  The character
    predicates below ([str.isspace], [str.isdigit], the [\w] class of [re],
    the line boundaries of [str.splitlines]) are the ones CPython uses,
    restricted to that range.  The en dash and the em dash of
    [lstrip(" -–—:")] lie outside the range and cannot occur in a text of
    this type, so the strip set is [" -:"] here; the description of a match,
    where the two dashes count, is stated on the module [Unicode], which
    has the same function over strings of any code points.

    The [while i < len(lines)] loop is a state record ([LoopState]) with the
    loop body as a function on it and the loop as bounded iteration of the
    body; the bound [len(lines)] is shown to be enough.  The Python [set]
    [seen] is a [gset] of 7-tuples.  The network is an oracle: a function from
    the chapter number to the outcome of the fetch. *)

From Stdlib Require Import Ascii Sorted.
From stdpp Require Import base numbers list strings gmap sets pretty.

#[local] Set Warnings "-clear-no-such-hyp".

(** ** Characters *)

Definition ord (c : ascii) : N := N_of_ascii c.

Definition in_range (lo hi : N) (c : ascii) : bool :=
  ((lo <=? ord c) && (ord c <=? hi))%N.

(** [Py_UNICODE_ISSPACE]: what [str.strip()] removes. *)
Definition isspace_char (c : ascii) : bool :=
  in_range 9 13 c || in_range 28 32 c || (ord c =? 133)%N || (ord c =? 160)%N.

(** The line boundaries of [str.splitlines()]. *)
Definition is_linebreak (c : ascii) : bool :=
  in_range 10 13 c || in_range 28 30 c || (ord c =? 133)%N.

(** The regex class [[0-9]]. *)
Definition is_ascii_digit (c : ascii) : bool := in_range 48 57 c.

(** [Py_UNICODE_ISDIGIT]: the ASCII digits and the superscripts 1, 2, 3. *)
Definition isdigit_char (c : ascii) : bool :=
  is_ascii_digit c || (ord c =? 178)%N || (ord c =? 179)%N || (ord c =? 185)%N.

(** [Py_UNICODE_ISALPHA]. *)
Definition isalpha_char (c : ascii) : bool :=
  in_range 65 90 c || in_range 97 122 c
  || (ord c =? 170)%N || (ord c =? 181)%N || (ord c =? 186)%N
  || in_range 192 214 c || in_range 216 246 c || in_range 248 255 c.

(** [Py_UNICODE_ISNUMERIC]: the digits and the vulgar fractions. *)
Definition isnumeric_char (c : ascii) : bool :=
  isdigit_char c || in_range 188 190 c.

(** The regex class [\w] of a [str] pattern: alphanumeric or underscore. *)
Definition is_word_char (c : ascii) : bool :=
  isalpha_char c || isnumeric_char c || (ord c =? 95)%N.

(** ** Strings *)

Fixpoint all_chars (p : ascii → bool) (s : string) : bool :=
  match s with
  | EmptyString => true
  | String c s' => p c && all_chars p s'
  end.

Fixpoint char_in (c : ascii) (chars : string) : bool :=
  match chars with
  | EmptyString => false
  | String d chars' => bool_decide (c = d) || char_in c chars'
  end.

Definition nonempty (s : string) : bool := negb (bool_decide (s = "")).

(** [len(s)] *)
Definition len (s : string) : nat := String.length s.

(** [s.isdigit()]: at least one character, and all of them digits. *)
Definition isdigit (s : string) : bool := nonempty s && all_chars isdigit_char s.

(** [s.startswith(p)] *)
Definition startswith (s p : string) : bool := String.prefix p s.

(** [sub in s] *)
Fixpoint contains (s sub : string) : bool :=
  String.prefix sub s ||
  match s with
  | EmptyString => false
  | String _ s' => contains s' sub
  end.

Fixpoint lstrip_by (p : ascii → bool) (s : string) : string :=
  match s with
  | EmptyString => ""
  | String c s' => if p c then lstrip_by p s' else s
  end.

Fixpoint rstrip_by (p : ascii → bool) (s : string) : string :=
  match s with
  | EmptyString => ""
  | String c s' =>
      match rstrip_by p s' with
      | EmptyString => if p c then "" else String c ""
      | r => String c r
      end
  end.

(** [s.strip()] *)
Definition strip (s : string) : string :=
  rstrip_by isspace_char (lstrip_by isspace_char s).

(** [s.lstrip(chars)] *)
Definition lstrip (s chars : string) : string :=
  lstrip_by (λ c, char_in c chars) s.

(** [s[n:]] *)
Fixpoint slice_from (n : nat) (s : string) : string :=
  match n, s with
  | O, _ => s
  | S _, EmptyString => ""
  | S n', String _ s' => slice_from n' s'
  end.

(** [s[:n]] *)
Fixpoint slice_to (n : nat) (s : string) : string :=
  match n, s with
  | O, _ => ""
  | S _, EmptyString => ""
  | S n', String c s' => String c (slice_to n' s')
  end.

(** [s[a:b]] *)
Definition slice (a b : nat) (s : string) : string :=
  slice_to (b - a) (slice_from a s).

(** [s.splitlines()]: [cur] is the line being read.  A line ends at a line
    boundary, ["\r\n"] counting as one, or at the end of the text; a text
    that ends with a boundary has no empty last line. *)
Fixpoint splitlines_go (cur : string) (s : string) : list string :=
  match s with
  | EmptyString => if nonempty cur then [cur] else []
  | String c s' =>
      if is_linebreak c then
        match s' with
        | String d s'' =>
            if ((ord c =? 13) && (ord d =? 10))%N
            then cur :: splitlines_go "" s''
            else cur :: splitlines_go "" s'
        | EmptyString => [cur]
        end
      else splitlines_go (cur +:+ String c "") s'
  end.

Definition splitlines (s : string) : list string := splitlines_go "" s.

(** [f"{n:02d}"] *)
Definition format_02d (n : Z) : string :=
  if bool_decide (0 ≤ n < 10)%Z then "0" +:+ pretty n else pretty n.

(** ** The regular expression

    [CODE_PATTERN] uses only [\b] and character classes with counts, so a
    pattern is a list of atoms, each matched in turn; there is nothing to
    backtrack over. *)

Inductive atom : Type :=
  | WordBoundary
  | CharClass (p : ascii → bool).

Definition is_word (o : option ascii) : bool :=
  match o with
  | Some c => is_word_char c
  | None => false
  end.

Definition first_char (s : string) : option ascii :=
  match s with
  | EmptyString => None
  | String c _ => Some c
  end.

(** [\b]: exactly one of the characters before and after the position is a
    word character; the ends of the string count as non-word. *)
Definition at_boundary (prev : option ascii) (s : string) : bool :=
  xorb (is_word prev) (is_word (first_char s)).

(** Match [pat] at the start of [s], where [prev] is the character before it
    in the searched string; the result is the length of the match. *)
Fixpoint match_here (pat : list atom) (prev : option ascii) (s : string)
  : option nat :=
  match pat with
  | [] => Some 0
  | WordBoundary :: pat' =>
      if at_boundary prev s then match_here pat' prev s else None
  | CharClass p :: pat' =>
      match s with
      | EmptyString => None
      | String c s' =>
          if p c then S <$> match_here pat' (Some c) s' else None
      end
  end.

(** The class [[0-9*]] and the literal [-]. *)
Definition code_char (c : ascii) : bool := is_ascii_digit c || (ord c =? 42)%N.
Definition hyphen (c : ascii) : bool := (ord c =? 45)%N.

(** [\b[0-9*]{10}-[0-9*]{2}-[0-9*]{2}\b] *)
Definition CODE_PATTERN : list atom :=
  [WordBoundary] ++ replicate 10 (CharClass code_char)
  ++ [CharClass hyphen] ++ replicate 2 (CharClass code_char)
  ++ [CharClass hyphen] ++ replicate 2 (CharClass code_char)
  ++ [WordBoundary].

(** A match object: [m.start()] and [m.end()]. *)
Record Match : Type := { m_start : nat; m_end : nat }.

(** [m.group(0)] for a match [m] in [s] *)
Definition group0 (s : string) (m : Match) : string :=
  slice (m_start m) (m_end m) s.

(** [pat.match(s)]: a match at the very start of [s], or [None]. *)
Definition re_match (pat : list atom) (s : string) : option Match :=
  (λ n, {| m_start := 0; m_end := n |}) <$> match_here pat None s.

(** [pat.finditer(s)]: the non-overlapping matches from left to right.
    [pos] is the position of [s] in the searched string, [prev] the
    character before it and [skip] the number of characters still covered
    by the last match.  (A match of length zero is not reported: the
    patterns here have none.) *)
Fixpoint finditer_go (pat : list atom) (pos skip : nat) (prev : option ascii)
    (s : string) : list Match :=
  match s with
  | EmptyString => []
  | String c s' =>
      match skip with
      | S k => finditer_go pat (S pos) k (Some c) s'
      | O =>
          match match_here pat prev s with
          | Some (S n) =>
              {| m_start := pos; m_end := pos + S n |}
                :: finditer_go pat (S pos) n (Some c) s'
          | _ => finditer_go pat (S pos) 0 (Some c) s'
          end
      end
  end.

Definition finditer (pat : list atom) (s : string) : list Match :=
  finditer_go pat 0 0 None s.

(** ** Records *)

(** One row of the hierarchy table: the dictionary appended to [records]. *)
Record Row : Type := {
  chapter : string;
  heading : string;
  heading_description : string;
  subheading : string;
  subheading_description : string;
  code : string;
  description : string
}.

#[global] Instance Row_eq_dec : EqDecision Row.
Proof. solve_decision. Defined.

(** The 7-tuple used as deduplication key. *)
Definition Key : Type :=
  (string * string * string * string * string * string * string)%type.

Definition key_of (rec : Row) : Key :=
  (chapter rec, heading rec, heading_description rec, subheading rec,
   subheading_description rec, code rec, description rec).

(** One row of the chapters table: the keys ["chapter"] and
    ["chapter_title"]. *)
Record ChapterRow : Type := {
  chapter_id : string;
  chapter_title : string
}.

(** ** [fetch_chapter_text]

    Only the address is modelled: [BASE_URL.format(chapter=chapter_str)], the
    template with its one placeholder, at the end, replaced by the chapter
    string.  The request and the HTML parser are outside the model. *)

Definition BASE_URL : string :=
  "https://www.hmcustoms.gov.gi/portal/services/tariff/print.jsf?c=".

Definition chapter_url (chapter : Z) : string :=
  BASE_URL +:+ format_02d chapter.

(** ** [extract_chapter_name] *)

Fixpoint first_chapter_line (chapter_str : string) (lines : list string)
  : string :=
  match lines with
  | [] => ""
  | raw :: rest =>
      let line := strip raw in
      if startswith line "CHAPTER " && contains line chapter_str
      then strip line
      else first_chapter_line chapter_str rest
  end.

Definition extract_chapter_name (text : string) (chapter : Z) : string :=
  first_chapter_line (format_02d chapter) (splitlines text).

(** ** [extract_hierarchy_from_text] *)

(** The local variables of the function that change in the loop. *)
Record LoopState : Type := {
  i : nat;
  current_heading : string;
  current_heading_desc : string;
  current_subheading : string;
  current_subheading_desc : string;
  seen : gset Key;
  records : list Row
}.

Definition init_state : LoopState :=
  {| i := 0;
     current_heading := ""; current_heading_desc := "";
     current_subheading := ""; current_subheading_desc := "";
     seen := ∅; records := [] |}.

(** [i += n] *)
Definition advance (n : nat) (s : LoopState) : LoopState :=
  {| i := i s + n;
     current_heading := current_heading s;
     current_heading_desc := current_heading_desc s;
     current_subheading := current_subheading s;
     current_subheading_desc := current_subheading_desc s;
     seen := seen s; records := records s |}.

(** The tests of the [if] chain, on the stripped line. *)
Definition is_skipped (line : string) : bool :=
  startswith line "CHAPTER "
  || bool_decide (line ∈ ["Chapter"; "Heading"; "Article Description"]).

Definition is_code_match (line : string) : bool :=
  bool_decide (is_Some (re_match CODE_PATTERN line)).

Definition is_heading_line (line : string) : bool :=
  bool_decide (len line = 4) && isdigit line && negb (is_code_match line).

Definition is_subheading_line (heading line : string) : bool :=
  bool_decide (len line = 5) && isdigit line
  && startswith line heading && negb (is_code_match line).

(** The test on the line after a heading or subheading line:
    [next_line and not next_line.isdigit() and not CODE_PATTERN.match(next_line)] *)
Definition is_description_line (next_line : string) : bool :=
  nonempty next_line && negb (isdigit next_line)
  && negb (is_code_match next_line).

(** The heading branch: the context is reset, and the next line becomes the
    heading description, and is stepped over, when it passes the test. *)
Definition on_heading (lines : list string) (line : string) (s : LoopState)
  : LoopState :=
  let s1 :=
    {| i := i s;
       current_heading := line; current_heading_desc := "";
       current_subheading := ""; current_subheading_desc := "";
       seen := seen s; records := records s |} in
  match lines !! (i s + 1) with
  | Some raw =>
      let next_line := strip raw in
      if is_description_line next_line then
        advance 2
          {| i := i s1;
             current_heading := current_heading s1;
             current_heading_desc := next_line;
             current_subheading := current_subheading s1;
             current_subheading_desc := current_subheading_desc s1;
             seen := seen s1; records := records s1 |}
      else advance 1 s1
  | None => advance 1 s1
  end.

(** The subheading branch. *)
Definition on_subheading (lines : list string) (line : string) (s : LoopState)
  : LoopState :=
  let s1 :=
    {| i := i s;
       current_heading := current_heading s;
       current_heading_desc := current_heading_desc s;
       current_subheading := line; current_subheading_desc := "";
       seen := seen s; records := records s |} in
  match lines !! (i s + 1) with
  | Some raw =>
      let next_line := strip raw in
      if is_description_line next_line then
        advance 2
          {| i := i s1;
             current_heading := current_heading s1;
             current_heading_desc := current_heading_desc s1;
             current_subheading := current_subheading s1;
             current_subheading_desc := next_line;
             seen := seen s1; records := records s1 |}
      else advance 1 s1
  | None => advance 1 s1
  end.

(** The description of a match: the rest of the line, or the next line when
    the rest is empty and the next line is not empty and does not start with
    a code. *)
Definition match_description (lines : list string) (idx : nat)
    (line : string) (m : Match) : string :=
  let desc := lstrip (strip (slice_from (m_end m) line)) " -:" in
  if nonempty desc then desc
  else
    match lines !! (idx + 1) with
    | Some raw =>
        let next_line := strip raw in
        if nonempty next_line && negb (is_code_match next_line)
        then next_line else desc
    | None => desc
    end.

(** The record a match stands for, before duplicates are suppressed. *)
Definition candidate (lines : list string) (chapter_str : string)
    (line : string) (s : LoopState) (m : Match) : Row :=
  {| chapter := chapter_str;
     heading := current_heading s;
     heading_description := current_heading_desc s;
     subheading := current_subheading s;
     subheading_description := current_subheading_desc s;
     code := group0 line m;
     description := match_description lines (i s) line m |}.

(** The body of [for match in CODE_PATTERN.finditer(line)]. *)
Definition on_match (lines : list string) (chapter_str : string)
    (line : string) (s : LoopState) (m : Match) : LoopState :=
  let rec := candidate lines chapter_str line s m in
  let key := key_of rec in
  if bool_decide (key ∈ seen s) then s
  else
    {| i := i s;
       current_heading := current_heading s;
       current_heading_desc := current_heading_desc s;
       current_subheading := current_subheading s;
       current_subheading_desc := current_subheading_desc s;
       seen := {[ key ]} ∪ seen s;
       records := records s ++ [rec] |}.

(** [lines[i].strip()] *)
Definition line_at (lines : list string) (idx : nat) : string :=
  strip (default "" (lines !! idx)).

(** The body of [while i < len(lines)]. *)
Definition body (lines : list string) (chapter_str : string) (s : LoopState)
  : LoopState :=
  let line := line_at lines (i s) in
  if negb (nonempty line) then advance 1 s
  else if is_skipped line then advance 1 s
  else if is_heading_line line then on_heading lines line s
  else if is_subheading_line (current_heading s) line
  then on_subheading lines line s
  else
    advance 1
      (foldl (on_match lines chapter_str line) s (finditer CODE_PATTERN line)).

(** At most [fuel] iterations of the loop. *)
Fixpoint while_loop (fuel : nat) (lines : list string) (chapter_str : string)
    (s : LoopState) : LoopState :=
  match fuel with
  | O => s
  | S fuel' =>
      if bool_decide (i s < length lines)
      then while_loop fuel' lines chapter_str (body lines chapter_str s)
      else s
  end.

Definition extract_hierarchy_from_text (text : string) (chapter : Z)
  : list Row :=
  let lines := splitlines text in
  records (while_loop (length lines) lines (format_02d chapter) init_state).

(** ** [main] *)

(** What [fetch_chapter_text] does for a chapter: it returns the text, or
    raises [requests.HTTPError], or another [requests.RequestException];
    the error carries its message. *)
Inductive FetchResult : Type :=
  | Fetched (text : string)
  | HTTPError (e : string)
  | RequestException (e : string).

Record MainState : Type := {
  all_records : list Row;
  chapter_records : list ChapterRow;
  stdout : list string
}.

(** The body of [for chapter in range(1, 100)]. *)
Definition main_body (fetch_chapter_text : Z → FetchResult)
    (st : MainState) (chapter : Z) : MainState :=
  let out := stdout st ++ ["Fetching chapter " +:+ format_02d chapter +:+ "..."] in
  match fetch_chapter_text chapter with
  | HTTPError e =>
      {| all_records := all_records st;
         chapter_records := chapter_records st;
         stdout := out ++ ["  !! HTTP error for chapter "
                           +:+ format_02d chapter +:+ ": " +:+ e] |}
  | RequestException e =>
      {| all_records := all_records st;
         chapter_records := chapter_records st;
         stdout := out ++ ["  !! Request error for chapter "
                           +:+ format_02d chapter +:+ ": " +:+ e] |}
  | Fetched text =>
      let chapter_name := extract_chapter_name text chapter in
      let hierarchy_records := extract_hierarchy_from_text text chapter in
      {| all_records := all_records st ++ hierarchy_records;
         chapter_records :=
           chapter_records st
           ++ [{| chapter_id := format_02d chapter;
                  chapter_title := chapter_name |}];
         stdout := out ++ ["  -> found "
                           +:+ pretty (length hierarchy_records)
                           +:+ " codes"] |}
  end.

(** The chapter loop, from empty lists. *)
Definition main_loop (fetch_chapter_text : Z → FetchResult) : MainState :=
  foldl (main_body fetch_chapter_text)
    {| all_records := []; chapter_records := []; stdout := [] |}
    (seqZ 1 99).

(** The global pass: [final_seen] and [deduped_records]. *)
Definition dedupe_step (acc : gset Key * list Row) (rec : Row)
  : gset Key * list Row :=
  let key := key_of rec in
  if bool_decide (key ∈ acc.1) then acc
  else ({[ key ]} ∪ acc.1, acc.2 ++ [rec]).

Definition global_dedupe (all : list Row) : list Row :=
  (foldl dedupe_step (∅, []) all).2.

(** The two tables that [main] writes. *)
Definition deduped_records (fetch_chapter_text : Z → FetchResult)
  : list Row :=
  global_dedupe (all_records (main_loop fetch_chapter_text)).

Definition chapters_table (fetch_chapter_text : Z → FetchResult)
  : list ChapterRow :=
  chapter_records (main_loop fetch_chapter_text).

(** ** The loop without duplicate suppression

    Step 4 of the extraction without step 5: every match is appended.  This
    is the stream of records against which "the first occurrence wins" is
    stated. *)

Definition on_match_all (lines : list string) (chapter_str : string)
    (line : string) (s : LoopState) (m : Match) : LoopState :=
  {| i := i s;
     current_heading := current_heading s;
     current_heading_desc := current_heading_desc s;
     current_subheading := current_subheading s;
     current_subheading_desc := current_subheading_desc s;
     seen := seen s;
     records := records s ++ [candidate lines chapter_str line s m] |}.

Definition body_all (lines : list string) (chapter_str : string)
    (s : LoopState) : LoopState :=
  let line := line_at lines (i s) in
  if negb (nonempty line) then advance 1 s
  else if is_skipped line then advance 1 s
  else if is_heading_line line then on_heading lines line s
  else if is_subheading_line (current_heading s) line
  then on_subheading lines line s
  else
    advance 1
      (foldl (on_match_all lines chapter_str line) s
         (finditer CODE_PATTERN line)).

Fixpoint while_loop_all (fuel : nat) (lines : list string)
    (chapter_str : string) (s : LoopState) : LoopState :=
  match fuel with
  | O => s
  | S fuel' =>
      if bool_decide (i s < length lines)
      then while_loop_all fuel' lines chapter_str (body_all lines chapter_str s)
      else s
  end.

Definition all_matches (text : string) (chapter : Z) : list Row :=
  let lines := splitlines text in
  records (while_loop_all (length lines) lines (format_02d chapter) init_state).

(** The elements of [l] that do not occur earlier, in the order of [l];
    [earlier] holds what came before [l]. *)
Fixpoint first_occurrences_from (earlier l : list Row) : list Row :=
  match l with
  | [] => []
  | r :: l' =>
      if bool_decide (r ∈ earlier)
      then first_occurrences_from earlier l'
      else r :: first_occurrences_from (earlier ++ [r]) l'
  end.

Definition first_occurrences (l : list Row) : list Row :=
  first_occurrences_from [] l.

(** ** Reading the loop *)

(** The branch the body takes on a stripped line. *)
Inductive LineKind : Type :=
  | Blank | Skipped | HeadingLine | SubheadingLine | CodeLine.

Definition classify (cur_heading line : string) : LineKind :=
  if negb (nonempty line) then Blank
  else if is_skipped line then Skipped
  else if is_heading_line line then HeadingLine
  else if is_subheading_line cur_heading line then SubheadingLine
  else CodeLine.

(** The branch taken in state [s]. *)
Definition kind_at (lines : list string) (s : LoopState) : LineKind :=
  classify (current_heading s) (line_at lines (i s)).

(** One iteration of the loop, guard included. *)
Definition step (lines : list string) (chapter_str : string) (s : LoopState)
  : LoopState :=
  if bool_decide (i s < length lines) then body lines chapter_str s else s.

(** ["\n".join(ls)]: the text whose lines are [ls]. *)
Fixpoint unlines (ls : list string) : string :=
  match ls with
  | [] => ""
  | [l] => l
  | l :: rest => l +:+ String (ascii_of_nat 10) (unlines rest)
  end.

(** ** Definitions used in the statements *)

(** The heading and subheading context of a state. *)
Definition ctx_of (s : LoopState) : string * string * string * string :=
  (current_heading s, current_heading_desc s,
   current_subheading s, current_subheading_desc s).

(** A subheading value fits a heading value: it is empty, or five digits
    that start with the heading. *)
Definition subheading_ok (h sub : string) : Prop :=
  sub = "" ∨ (len sub = 5 ∧ isdigit sub = true ∧ startswith sub h = true).

(** What every iteration keeps: [seen] holds the keys of [records], no
    record occurs twice, every record carries the chapter string, and the
    current context and every record have fitting subheadings. *)
Record loop_inv (chapter_str : string) (s : LoopState) : Prop := {
  inv_seen : ∀ k, k ∈ seen s ↔ k ∈ key_of <$> records s;
  inv_nodup : NoDup (records s);
  inv_chapter : ∀ r, r ∈ records s → chapter r = chapter_str;
  inv_ctx : subheading_ok (current_heading s) (current_subheading s);
  inv_rows : ∀ r, r ∈ records s → subheading_ok (heading r) (subheading r)
}.

(** A state of the loop and a state of the loop without suppression that
    belong together. *)
Definition same_run (s sa : LoopState) : Prop :=
  i s = i sa ∧ ctx_of s = ctx_of sa
  ∧ records s = first_occurrences (records sa)
  ∧ ∀ k, k ∈ seen s ↔ k ∈ key_of <$> records sa.

(** What one chapter adds to the three lists. *)
Definition hierarchy_of (fetch_chapter_text : Z → FetchResult) (c : Z)
  : list Row :=
  match fetch_chapter_text c with
  | Fetched text => extract_hierarchy_from_text text c
  | _ => []
  end.

(** The title row of a chapter, when its fetch succeeds. *)
Definition title_row_of (fetch_chapter_text : Z → FetchResult) (c : Z)
  : list ChapterRow :=
  match fetch_chapter_text c with
  | Fetched text =>
      [{| chapter_id := format_02d c;
          chapter_title := extract_chapter_name text c |}]
  | _ => []
  end.

(** The line printed before a chapter is fetched. *)
Definition fetching_line (c : Z) : string :=
  "Fetching chapter " +:+ format_02d c +:+ "...".

(** The line printed after the fetch of a chapter: the error, or the number
    of records found. *)
Definition outcome_line (fetch_chapter_text : Z → FetchResult) (c : Z)
  : string :=
  match fetch_chapter_text c with
  | HTTPError e =>
      "  !! HTTP error for chapter " +:+ format_02d c +:+ ": " +:+ e
  | RequestException e =>
      "  !! Request error for chapter " +:+ format_02d c +:+ ": " +:+ e
  | Fetched text =>
      "  -> found "
      +:+ pretty (length (extract_hierarchy_from_text text c)) +:+ " codes"
  end.

(** The number of characters a pattern consumes. *)
Fixpoint pattern_width (pat : list atom) : nat :=
  match pat with
  | [] => 0
  | WordBoundary :: pat' => pattern_width pat'
  | CharClass _ :: pat' => S (pattern_width pat')
  end.

(** A network on which chapter 2 answers with an HTTP error, chapter 3 does
    not answer, and the other chapters have one code each. *)
Definition sample_fetch (c : Z) : FetchResult :=
  if bool_decide (c = 2%Z) then HTTPError "404 Client Error"
  else if bool_decide (c = 3%Z) then RequestException "Read timed out"
  else Fetched (unlines ["CHAPTER " +:+ format_02d c;
                         format_02d c +:+ "01";
                         format_02d c +:+ "01100000-00-00 Goods"]).

(** The output of a chapter: no two records with one key, and every record
    with the string of the chapter. *)
Definition chapter_output_ok (c : Z) (recs : list Row) : Prop :=
  NoDup (key_of <$> recs) ∧ ∀ r, r ∈ recs → chapter r = format_02d c.

(** A string on which [rstrip] has nothing to do. *)
Definition rstripped (p : ascii → bool) (s : string) : Prop :=
  rstrip_by p s = s.

(** The last character of [s], or [prev] when [s] is empty. *)
Fixpoint last_char (prev : option ascii) (s : string) : option ascii :=
  match s with
  | EmptyString => prev
  | String c s' => last_char (Some c) s'
  end.

(** The shape of a tariff code: ten, two and two characters of [[0-9*]],
    joined by hyphens. *)
Definition code_shape (tok : string) : Prop :=
  ∃ g1 g2 g3,
    tok = g1 +:+ "-" +:+ g2 +:+ "-" +:+ g3
    ∧ len g1 = 10 ∧ len g2 = 2 ∧ len g3 = 2
    ∧ all_chars code_char g1 = true
    ∧ all_chars code_char g2 = true
    ∧ all_chars code_char g3 = true.

(** The first and the last character are digits. *)
Definition digit_ends (tok : string) : Prop :=
  (∃ c, first_char tok = Some c ∧ is_ascii_digit c = true)
  ∧ (∃ c, last_char None tok = Some c ∧ is_ascii_digit c = true).

(** No character class of the pattern accepts white space. *)
Definition avoids_space (pat : list atom) : Prop :=
  Forall (λ a, match a with
               | WordBoundary => True
               | CharClass p => ∀ c, p c = true → isspace_char c = false
               end) pat.

(** A character that is not white space. *)
Definition not_space (c : ascii) : bool := negb (isspace_char c).

(** A heading value and its description: the heading is empty or four
    digits, and a description that is not empty belongs to a heading that is
    not empty and passed the test of a description line. *)
Definition heading_ok (h hd : string) : Prop :=
  (h = "" ∨ (len h = 4 ∧ isdigit h = true))
  ∧ (hd = "" ∨ (h ≠ "" ∧ is_description_line hd = true)).

(** The same for the description of a subheading. *)
Definition subheading_desc_ok (sub sd : string) : Prop :=
  sd = "" ∨ (sub ≠ "" ∧ is_description_line sd = true).

(** What every iteration keeps for the headings and the descriptions. *)
Record context_inv (s : LoopState) : Prop := {
  cinv_heading : heading_ok (current_heading s) (current_heading_desc s);
  cinv_subheading :
    subheading_desc_ok (current_subheading s) (current_subheading_desc s);
  cinv_rows : ∀ r, r ∈ records s →
    heading_ok (heading r) (heading_description r)
    ∧ subheading_desc_ok (subheading r) (subheading_description r)
}.

(** A string taken from the text: empty, or a run of characters of one of
    the stripped lines. *)
Definition piece_of (lines : list string) (x : string) : Prop :=
  x = "" ∨ ∃ j a b, j < length lines ∧ x = slice a b (line_at lines j).

(** What every iteration keeps for the origin of the fields. *)
Record pieces_inv (lines : list string) (s : LoopState) : Prop := {
  pinv_heading : piece_of lines (current_heading s);
  pinv_heading_desc : piece_of lines (current_heading_desc s);
  pinv_subheading : piece_of lines (current_subheading s);
  pinv_subheading_desc : piece_of lines (current_subheading_desc s);
  pinv_rows : ∀ r, r ∈ records s →
    piece_of lines (heading r) ∧ piece_of lines (heading_description r)
    ∧ piece_of lines (subheading r)
    ∧ piece_of lines (subheading_description r)
    ∧ piece_of lines (code r) ∧ piece_of lines (description r)
}.

(** A string that holds no line boundary. *)
Definition one_line (s : string) : Prop :=
  all_chars (λ c, negb (is_linebreak c)) s = true.

(** ** The extraction over all code points

    The same function once more, for texts that hold any code point: a
    string is a list of code points.  The white space of [str.strip()], the
    line boundaries of [str.splitlines()] and the strip set [" -–—:"] are
    written out in full.  [str.isdigit()] and the class [\w] are written out
    for the code points up to U+00FF; above, they are read from the Unicode
    character database, which is a parameter ([UnicodeData]). *)

Module Unicode.

(** A string of code points. *)
Definition str : Type := list N.

(** The string of a literal; a character of the literal is its code
    point. *)
Definition lit (s : string) : str := N_of_ascii <$> String.list_ascii_of_string s.

(** What the Unicode character database says above U+00FF. *)
Class UnicodeData : Type := {
  digit_above : N → bool;
  alnum_above : N → bool
}.

Definition in_range (lo hi c : N) : bool := ((lo <=? c) && (c <=? hi))%N.

(** [Py_UNICODE_ISSPACE]: what [str.strip()] removes. *)
Definition isspace_char (c : N) : bool :=
  in_range 9 13 c || in_range 28 32 c || (c =? 133)%N || (c =? 160)%N
  || (c =? 5760)%N || in_range 8192 8202 c || (c =? 8232)%N || (c =? 8233)%N
  || (c =? 8239)%N || (c =? 8287)%N || (c =? 12288)%N.

(** The line boundaries of [str.splitlines()]. *)
Definition is_linebreak (c : N) : bool :=
  in_range 10 13 c || in_range 28 30 c || (c =? 133)%N
  || (c =? 8232)%N || (c =? 8233)%N.

(** The regex class [[0-9]]. *)
Definition is_ascii_digit (c : N) : bool := in_range 48 57 c.

(** [Py_UNICODE_ISDIGIT]. *)
Definition isdigit_char `{UnicodeData} (c : N) : bool :=
  if (c <? 256)%N
  then is_ascii_digit c || (c =? 178)%N || (c =? 179)%N || (c =? 185)%N
  else digit_above c.

(** The regex class [\w] of a [str] pattern: alphanumeric or underscore. *)
Definition is_word_char `{UnicodeData} (c : N) : bool :=
  if (c <? 256)%N
  then in_range 48 57 c || in_range 65 90 c || in_range 97 122 c
       || (c =? 95)%N
       || (c =? 170)%N || (c =? 178)%N || (c =? 179)%N || (c =? 181)%N
       || (c =? 185)%N || (c =? 186)%N || in_range 188 190 c
       || in_range 192 214 c || in_range 216 246 c || in_range 248 255 c
  else alnum_above c.

Definition nonempty (s : str) : bool := negb (bool_decide (s = [])).

(** [len(s)] *)
Definition len (s : str) : nat := length s.

(** [s.isdigit()] *)
Definition isdigit `{UnicodeData} (s : str) : bool :=
  nonempty s && forallb isdigit_char s.

(** [s.startswith(p)] *)
Definition startswith (s p : str) : bool := bool_decide (p `prefix_of` s).

Fixpoint lstrip_by (p : N → bool) (s : str) : str :=
  match s with
  | [] => []
  | c :: s' => if p c then lstrip_by p s' else s
  end.

Fixpoint rstrip_by (p : N → bool) (s : str) : str :=
  match s with
  | [] => []
  | c :: s' =>
      match rstrip_by p s' with
      | [] => if p c then [] else [c]
      | r => c :: r
      end
  end.

(** [s.strip()] *)
Definition strip (s : str) : str :=
  rstrip_by isspace_char (lstrip_by isspace_char s).

(** [s.lstrip(chars)] *)
Definition lstrip (s chars : str) : str :=
  lstrip_by (λ c, bool_decide (c ∈ chars)) s.

(** The argument of [lstrip] in the source: a space, a hyphen, an en dash
    (U+2013), an em dash (U+2014) and a colon. *)
Definition SEPARATORS : str := [32; 45; 8211; 8212; 58]%N.

(** [s[n:]] and [s[a:b]] *)
Definition slice_from (n : nat) (s : str) : str := drop n s.
Definition slice (a b : nat) (s : str) : str := take (b - a) (drop a s).

(** [s.splitlines()] *)
Fixpoint splitlines_go (cur : str) (s : str) : list str :=
  match s with
  | [] => if nonempty cur then [cur] else []
  | c :: s' =>
      if is_linebreak c then
        match s' with
        | d :: s'' =>
            if ((c =? 13) && (d =? 10))%N
            then cur :: splitlines_go [] s''
            else cur :: splitlines_go [] s'
        | [] => [cur]
        end
      else splitlines_go (cur ++ [c]) s'
  end.

Definition splitlines (s : str) : list str := splitlines_go [] s.

(** The regular expression, as for the 8-bit strings. *)
Inductive atom : Type :=
  | WordBoundary
  | CharClass (p : N → bool).

Definition is_word `{UnicodeData} (o : option N) : bool :=
  match o with
  | Some c => is_word_char c
  | None => false
  end.

Definition at_boundary `{UnicodeData} (prev : option N) (s : str) : bool :=
  xorb (is_word prev) (is_word (head s)).

Fixpoint match_here `{UnicodeData} (pat : list atom) (prev : option N)
    (s : str) : option nat :=
  match pat with
  | [] => Some 0
  | WordBoundary :: pat' =>
      if at_boundary prev s then match_here pat' prev s else None
  | CharClass p :: pat' =>
      match s with
      | [] => None
      | c :: s' => if p c then S <$> match_here pat' (Some c) s' else None
      end
  end.

Definition code_char (c : N) : bool := is_ascii_digit c || (c =? 42)%N.
Definition hyphen (c : N) : bool := (c =? 45)%N.

(** [\b[0-9*]{10}-[0-9*]{2}-[0-9*]{2}\b] *)
Definition CODE_PATTERN : list atom :=
  [WordBoundary] ++ replicate 10 (CharClass code_char)
  ++ [CharClass hyphen] ++ replicate 2 (CharClass code_char)
  ++ [CharClass hyphen] ++ replicate 2 (CharClass code_char)
  ++ [WordBoundary].

Definition group0 (s : str) (m : Match) : str :=
  slice (m_start m) (m_end m) s.

Definition re_match `{UnicodeData} (pat : list atom) (s : str)
  : option Match :=
  (λ n, {| m_start := 0; m_end := n |}) <$> match_here pat None s.

Fixpoint finditer_go `{UnicodeData} (pat : list atom) (pos skip : nat)
    (prev : option N) (s : str) : list Match :=
  match s with
  | [] => []
  | c :: s' =>
      match skip with
      | S k => finditer_go pat (S pos) k (Some c) s'
      | O =>
          match match_here pat prev s with
          | Some (S n) =>
              {| m_start := pos; m_end := pos + S n |}
                :: finditer_go pat (S pos) n (Some c) s'
          | _ => finditer_go pat (S pos) 0 (Some c) s'
          end
      end
  end.

Definition finditer `{UnicodeData} (pat : list atom) (s : str)
  : list Match :=
  finditer_go pat 0 0 None s.

(** The dictionary appended to [records]. *)
Record Row : Type := {
  chapter : str;
  heading : str;
  heading_description : str;
  subheading : str;
  subheading_description : str;
  code : str;
  description : str
}.

Definition Key : Type := (str * str * str * str * str * str * str)%type.

Definition key_of (rec : Row) : Key :=
  (chapter rec, heading rec, heading_description rec, subheading rec,
   subheading_description rec, code rec, description rec).

Record LoopState : Type := {
  i : nat;
  current_heading : str;
  current_heading_desc : str;
  current_subheading : str;
  current_subheading_desc : str;
  seen : gset Key;
  records : list Row
}.

Definition init_state : LoopState :=
  {| i := 0;
     current_heading := []; current_heading_desc := [];
     current_subheading := []; current_subheading_desc := [];
     seen := ∅; records := [] |}.

Definition advance (n : nat) (s : LoopState) : LoopState :=
  {| i := i s + n;
     current_heading := current_heading s;
     current_heading_desc := current_heading_desc s;
     current_subheading := current_subheading s;
     current_subheading_desc := current_subheading_desc s;
     seen := seen s; records := records s |}.

Definition is_skipped (line : str) : bool :=
  startswith line (lit "CHAPTER ")
  || bool_decide (line ∈ [lit "Chapter"; lit "Heading";
                          lit "Article Description"]).

Definition is_code_match `{UnicodeData} (line : str) : bool :=
  bool_decide (is_Some (re_match CODE_PATTERN line)).

Definition is_heading_line `{UnicodeData} (line : str) : bool :=
  bool_decide (len line = 4) && isdigit line && negb (is_code_match line).

Definition is_subheading_line `{UnicodeData} (heading line : str) : bool :=
  bool_decide (len line = 5) && isdigit line
  && startswith line heading && negb (is_code_match line).

Definition is_description_line `{UnicodeData} (next_line : str) : bool :=
  nonempty next_line && negb (isdigit next_line)
  && negb (is_code_match next_line).

Definition on_heading `{UnicodeData} (lines : list str) (line : str)
    (s : LoopState) : LoopState :=
  let s1 :=
    {| i := i s;
       current_heading := line; current_heading_desc := [];
       current_subheading := []; current_subheading_desc := [];
       seen := seen s; records := records s |} in
  match lines !! (i s + 1) with
  | Some raw =>
      let next_line := strip raw in
      if is_description_line next_line then
        advance 2
          {| i := i s1;
             current_heading := current_heading s1;
             current_heading_desc := next_line;
             current_subheading := current_subheading s1;
             current_subheading_desc := current_subheading_desc s1;
             seen := seen s1; records := records s1 |}
      else advance 1 s1
  | None => advance 1 s1
  end.

Definition on_subheading `{UnicodeData} (lines : list str) (line : str)
    (s : LoopState) : LoopState :=
  let s1 :=
    {| i := i s;
       current_heading := current_heading s;
       current_heading_desc := current_heading_desc s;
       current_subheading := line; current_subheading_desc := [];
       seen := seen s; records := records s |} in
  match lines !! (i s + 1) with
  | Some raw =>
      let next_line := strip raw in
      if is_description_line next_line then
        advance 2
          {| i := i s1;
             current_heading := current_heading s1;
             current_heading_desc := current_heading_desc s1;
             current_subheading := current_subheading s1;
             current_subheading_desc := next_line;
             seen := seen s1; records := records s1 |}
      else advance 1 s1
  | None => advance 1 s1
  end.

(** Lines 112 to 118: the description of a match. *)
Definition match_description `{UnicodeData} (lines : list str) (idx : nat)
    (line : str) (m : Match) : str :=
  let desc := lstrip (strip (slice_from (m_end m) line)) SEPARATORS in
  if nonempty desc then desc
  else
    match lines !! (idx + 1) with
    | Some raw =>
        let next_line := strip raw in
        if nonempty next_line && negb (is_code_match next_line)
        then next_line else desc
    | None => desc
    end.

Definition candidate `{UnicodeData} (lines : list str) (chapter_str : str)
    (line : str) (s : LoopState) (m : Match) : Row :=
  {| chapter := chapter_str;
     heading := current_heading s;
     heading_description := current_heading_desc s;
     subheading := current_subheading s;
     subheading_description := current_subheading_desc s;
     code := group0 line m;
     description := match_description lines (i s) line m |}.

Definition on_match `{UnicodeData} (lines : list str) (chapter_str : str)
    (line : str) (s : LoopState) (m : Match) : LoopState :=
  let rec := candidate lines chapter_str line s m in
  let key := key_of rec in
  if bool_decide (key ∈ seen s) then s
  else
    {| i := i s;
       current_heading := current_heading s;
       current_heading_desc := current_heading_desc s;
       current_subheading := current_subheading s;
       current_subheading_desc := current_subheading_desc s;
       seen := {[ key ]} ∪ seen s;
       records := records s ++ [rec] |}.

(** [lines[i].strip()] *)
Definition line_at (lines : list str) (idx : nat) : str :=
  strip (default [] (lines !! idx)).

(** The body of [while i < len(lines)]. *)
Definition body `{UnicodeData} (lines : list str) (chapter_str : str)
    (s : LoopState) : LoopState :=
  let line := line_at lines (i s) in
  if negb (nonempty line) then advance 1 s
  else if is_skipped line then advance 1 s
  else if is_heading_line line then on_heading lines line s
  else if is_subheading_line (current_heading s) line
  then on_subheading lines line s
  else
    advance 1
      (foldl (on_match lines chapter_str line) s (finditer CODE_PATTERN line)).

Fixpoint while_loop `{UnicodeData} (fuel : nat) (lines : list str)
    (chapter_str : str) (s : LoopState) : LoopState :=
  match fuel with
  | O => s
  | S fuel' =>
      if bool_decide (i s < length lines)
      then while_loop fuel' lines chapter_str (body lines chapter_str s)
      else s
  end.

Definition extract_hierarchy_from_text `{UnicodeData} (text : str)
    (chapter : Z) : list Row :=
  let lines := splitlines text in
  records
    (while_loop (length lines) lines (lit (format_02d chapter)) init_state).

(** One iteration of the loop, guard included. *)
Definition step `{UnicodeData} (lines : list str) (chapter_str : str)
    (s : LoopState) : LoopState :=
  if bool_decide (i s < length lines) then body lines chapter_str s else s.

(** ["\n".join(ls)] *)
Fixpoint unlines (ls : list str) : str :=
  match ls with
  | [] => []
  | [l] => l
  | l :: rest => l ++ 10%N :: unlines rest
  end.

(** A separator of a description: white space, or a character of the strip
    set. *)
Definition is_separator (c : N) : bool :=
  isspace_char c || bool_decide (c ∈ SEPARATORS).

(** The cursor and the context of a state. *)
Definition frame (s : LoopState) : nat * str * str * str * str :=
  (i s, current_heading s, current_heading_desc s,
   current_subheading s, current_subheading_desc s).

(** Every key of [seen] is the key of a record. *)
Definition seen_recorded (s : LoopState) : Prop :=
  ∀ k, k ∈ seen s → k ∈ key_of <$> records s.

(** A character database with no digit and no letter above U+00FF, for
    examples. *)
Definition plain_data : UnicodeData :=
  {| digit_above := λ _, false; alnum_above := λ _, false |}.

End Unicode.

(** * Properties *)

(** ** Characters and strings *)

Lemma isspace_not_word c : isspace_char c = true → is_word_char c = false.
Proof. destruct c as [[] [] [] [] [] [] [] []]; vm_compute; congruence. Qed.

Lemma ascii_digit_word c : is_ascii_digit c = true → is_word_char c = true.
Proof. destruct c as [[] [] [] [] [] [] [] []]; vm_compute; congruence. Qed.

Lemma ascii_digit_code_char c : is_ascii_digit c = true → code_char c = true.
Proof. unfold code_char. intros ->. done. Qed.

Lemma code_char_not_space c : code_char c = true → isspace_char c = false.
Proof. destruct c as [[] [] [] [] [] [] [] []]; vm_compute; congruence. Qed.

Lemma hyphen_not_space c : hyphen c = true → isspace_char c = false.
Proof. destruct c as [[] [] [] [] [] [] [] []]; vm_compute; congruence. Qed.

Lemma nonempty_true s : nonempty s = true ↔ s ≠ "".
Proof. unfold nonempty. rewrite negb_true_iff, bool_decide_eq_false. done. Qed.

Lemma nonempty_false s : nonempty s = false ↔ s = "".
Proof. unfold nonempty. rewrite negb_false_iff, bool_decide_eq_true. done. Qed.

Lemma app_String c s t : String c s +:+ t = String c (s +:+ t).
Proof. reflexivity. Qed.

Lemma app_empty_l t : "" +:+ t = t.
Proof. reflexivity. Qed.

Lemma len_app s t : len (s +:+ t) = len s + len t.
Proof. unfold len. induction s; rewrite ?app_String, ?app_empty_l; simpl; auto. Qed.

Lemma app_empty_r s : s +:+ "" = s.
Proof. induction s; rewrite ?app_String, ?app_empty_l; f_equal; auto. Qed.

Lemma app_assoc_str s t u : (s +:+ t) +:+ u = s +:+ (t +:+ u).
Proof. induction s; rewrite ?app_String, ?app_empty_l; f_equal; auto. Qed.

Lemma slice_from_app s t : slice_from (len s) (s +:+ t) = t.
Proof.
  induction s; rewrite ?app_String, ?app_empty_l; simpl; auto.
Qed.

Lemma slice_to_app s t : slice_to (len s) (s +:+ t) = s.
Proof.
  induction s; rewrite ?app_String, ?app_empty_l; simpl; [by destruct t|].
  f_equal; auto.
Qed.

Lemma slice_app pre tok post :
  slice (len pre) (len pre + len tok) (pre +:+ tok +:+ post) = tok.
Proof.
  unfold slice. rewrite slice_from_app.
  replace (len pre + len tok - len pre) with (len tok) by lia.
  apply slice_to_app.
Qed.

Lemma slice_to_from n s : slice_to n s +:+ slice_from n s = s.
Proof.
  revert s; induction n; intros [|c s]; simpl;
    rewrite ?app_String, ?app_empty_l; f_equal; auto.
Qed.

Lemma startswith_empty s : startswith s "" = true.
Proof. unfold startswith. by destruct s. Qed.

(** What [lstrip] removes is a run of characters of the strip set, and what
    it leaves does not start with one. *)
Lemma lstrip_by_spec p s :
  ∃ pre, s = pre +:+ lstrip_by p s ∧ all_chars p pre = true
         ∧ match lstrip_by p s with
           | EmptyString => True
           | String c _ => p c = false
           end.
Proof.
  induction s as [|c s IH]; simpl.
  - by exists "".
  - destruct (p c) eqn:Hc.
    + destruct IH as (pre & Heq & Hall & Hfirst).
      exists (String c pre). rewrite app_String. simpl. rewrite Hc, Hall.
      split_and!; [by f_equal|done|done].
    + exists "". done.
Qed.

Lemma rstrip_by_empty p s : rstrip_by p s = "" → all_chars p s = true.
Proof.
  induction s as [|c s IH]; simpl; [done|].
  destruct (rstrip_by p s) eqn:E; [|done].
  destruct (p c); [|done]. intros _. by rewrite IH.
Qed.

(** ** The loop body *)

Section loop.
Context (lines : list string) (chapter_str : string).

Lemma body_unfold s :
  body lines chapter_str s =
  let line := line_at lines (i s) in
  match kind_at lines s with
  | Blank | Skipped => advance 1 s
  | HeadingLine => on_heading lines line s
  | SubheadingLine => on_subheading lines line s
  | CodeLine =>
      advance 1
        (foldl (on_match lines chapter_str line) s
           (finditer CODE_PATTERN line))
  end.
Proof. unfold body, kind_at, classify. by repeat case_match. Qed.

Lemma body_all_unfold s :
  body_all lines chapter_str s =
  let line := line_at lines (i s) in
  match kind_at lines s with
  | Blank | Skipped => advance 1 s
  | HeadingLine => on_heading lines line s
  | SubheadingLine => on_subheading lines line s
  | CodeLine =>
      advance 1
        (foldl (on_match_all lines chapter_str line) s
           (finditer CODE_PATTERN line))
  end.
Proof. unfold body_all, kind_at, classify. by repeat case_match. Qed.

Lemma candidate_ext line s s' m :
  i s = i s' → ctx_of s = ctx_of s' →
  candidate lines chapter_str line s m = candidate lines chapter_str line s' m.
Proof.
  unfold candidate, ctx_of. intros -> [= -> -> -> ->]. done.
Qed.

Lemma on_match_frame line s m :
  i (on_match lines chapter_str line s m) = i s
  ∧ ctx_of (on_match lines chapter_str line s m) = ctx_of s.
Proof. unfold on_match. by case_bool_decide. Qed.

Lemma foldl_on_match_frame line ms s :
  i (foldl (on_match lines chapter_str line) s ms) = i s
  ∧ ctx_of (foldl (on_match lines chapter_str line) s ms) = ctx_of s.
Proof.
  revert s; induction ms as [|m ms IH]; intros s; simpl; [done|].
  destruct (IH (on_match lines chapter_str line s m)) as [-> ->].
  apply on_match_frame.
Qed.

(** The matches of a line add, at the end of [records], candidates of
    that line. *)
Lemma foldl_on_match_records line ms s :
  ∃ new,
    records (foldl (on_match lines chapter_str line) s ms) = records s ++ new
    ∧ ∀ r, r ∈ new → ∃ m, m ∈ ms ∧ r = candidate lines chapter_str line s m.
Proof.
  revert s; induction ms as [|m ms IH]; intros s; simpl.
  - exists []. split; [by rewrite app_nil_r|]. intros r Hr. by inversion Hr.
  - destruct (IH (on_match lines chapter_str line s m)) as (new & Hrec & Hnew).
    destruct (on_match_frame line s m) as [Hi Hctx].
    assert (∀ r, r ∈ new → ∃ m', m' ∈ m :: ms
               ∧ r = candidate lines chapter_str line s m') as Hnew'.
    { intros r Hr. destruct (Hnew r Hr) as (m' & Hm' & ->).
      exists m'. split; [by right|]. by apply candidate_ext. }
    rewrite Hrec. unfold on_match. case_bool_decide.
    + exists new. done.
    + exists (candidate lines chapter_str line s m :: new). simpl.
      split; [by rewrite <- app_assoc|].
      intros r [->|Hr]%elem_of_cons; [|by apply Hnew'].
      exists m. split; [by left|done].
Qed.

(** Every match of a line has its candidate in [records] afterwards:
    appended now, or there already. *)
Lemma foldl_on_match_present line ms s m :
  (∀ k, k ∈ seen s → k ∈ key_of <$> records s) →
  m ∈ ms →
  candidate lines chapter_str line s m
    ∈ records (foldl (on_match lines chapter_str line) s ms).
Proof.
  revert s; induction ms as [|m0 ms IH]; intros s Hseen Hm; [by inversion Hm|].
  simpl.
  destruct (on_match_frame line s m0) as [Hi Hctx].
  assert (∀ k, k ∈ seen (on_match lines chapter_str line s m0) →
            k ∈ key_of <$> records (on_match lines chapter_str line s m0))
    as Hseen'.
  { unfold on_match. case_bool_decide; [done|]. simpl. intros k.
    rewrite fmap_app, elem_of_app, elem_of_union, elem_of_singleton.
    intros [->|Hk]; [right; simpl; by left|left; by apply Hseen]. }
  destruct (foldl_on_match_records line ms (on_match lines chapter_str line s m0))
    as (new & Hrec & _).
  apply elem_of_cons in Hm as [->|Hm].
  - rewrite Hrec. apply elem_of_app. left.
    unfold on_match. case_bool_decide as Hk.
    + apply Hseen in Hk. apply list_elem_of_fmap in Hk as (r & Hkey & Hr).
      assert (r = candidate lines chapter_str line s m0) as <-; [|done].
      destruct r, (candidate lines chapter_str line s m0).
      unfold key_of in Hkey. simpl in Hkey. by simplify_eq.
    + simpl. apply elem_of_app. right. by left.
  - rewrite (candidate_ext line s (on_match lines chapter_str line s m0) m)
      by done.
    by apply IH.
Qed.
End loop.

#[global] Instance key_of_inj : Inj (=) (=) key_of.
Proof. intros [] [] [=]. by simplify_eq. Qed.

(** ** The cursor and the iteration *)

Section cursor.
Context (lines : list string) (chapter_str : string).

Lemma line_at_lookup idx raw :
  lines !! idx = Some raw → line_at lines idx = strip raw.
Proof. unfold line_at. by intros ->. Qed.

Lemma on_heading_i line s :
  i (on_heading lines line s) = i s + 1
  ∨ (i (on_heading lines line s) = i s + 2
     ∧ i s + 1 < length lines
     ∧ is_description_line (line_at lines (i s + 1)) = true).
Proof.
  unfold on_heading, line_at.
  destruct (lines !! (i s + 1)) as [raw|] eqn:E; simpl; [|by left].
  destruct (is_description_line (strip raw)) eqn:D; simpl; [|by left].
  right. split_and!; [done| |done]. by eapply lookup_lt_Some.
Qed.

Lemma on_subheading_i line s :
  i (on_subheading lines line s) = i s + 1
  ∨ (i (on_subheading lines line s) = i s + 2
     ∧ i s + 1 < length lines
     ∧ is_description_line (line_at lines (i s + 1)) = true).
Proof.
  unfold on_subheading, line_at.
  destruct (lines !! (i s + 1)) as [raw|] eqn:E; simpl; [|by left].
  destruct (is_description_line (strip raw)) eqn:D; simpl; [|by left].
  right. split_and!; [done| |done]. by eapply lookup_lt_Some.
Qed.

(** The cursor moves by one line, or by two when a heading or subheading
    line takes the next line as its description. *)
Lemma body_i s :
  i (body lines chapter_str s) = i s + 1
  ∨ (i (body lines chapter_str s) = i s + 2
     ∧ (kind_at lines s = HeadingLine ∨ kind_at lines s = SubheadingLine)
     ∧ i s + 1 < length lines
     ∧ is_description_line (line_at lines (i s + 1)) = true).
Proof.
  rewrite body_unfold. simpl. destruct (kind_at lines s) eqn:K.
  - by left.
  - by left.
  - destruct (on_heading_i (line_at lines (i s)) s) as [?|(?&?&?)];
      [by left|right; eauto].
  - destruct (on_subheading_i (line_at lines (i s)) s) as [?|(?&?&?)];
      [by left|right; eauto].
  - left. simpl. f_equal. apply foldl_on_match_frame.
Qed.

Lemma body_i_bounds s :
  i s < i (body lines chapter_str s) ≤ i s + 2.
Proof. destruct (body_i s) as [->|[-> _]]; lia. Qed.

Lemma on_heading_records line s :
  records (on_heading lines line s) = records s
  ∧ seen (on_heading lines line s) = seen s.
Proof. unfold on_heading. by repeat case_match. Qed.

Lemma on_subheading_records line s :
  records (on_subheading lines line s) = records s
  ∧ seen (on_subheading lines line s) = seen s.
Proof. unfold on_subheading. by repeat case_match. Qed.

(** An iteration only appends to [records]; what it appends are
    candidates of the current line, in the current context. *)
Lemma body_records s :
  ∃ new,
    records (body lines chapter_str s) = records s ++ new
    ∧ (kind_at lines s ≠ CodeLine → new = [])
    ∧ ∀ r, r ∈ new →
        ∃ m, m ∈ finditer CODE_PATTERN (line_at lines (i s))
             ∧ r = candidate lines chapter_str (line_at lines (i s)) s m.
Proof.
  rewrite body_unfold. simpl. destruct (kind_at lines s) eqn:K.
  1,2: exists []; simpl; rewrite app_nil_r; split_and!; [done|done|];
       intros r Hr; by inversion Hr.
  1: exists []; rewrite app_nil_r;
     split_and!; [apply on_heading_records|done|]; intros r Hr; by inversion Hr.
  1: exists []; rewrite app_nil_r;
     split_and!; [apply on_subheading_records|done|];
     intros r Hr; by inversion Hr.
  destruct (foldl_on_match_records lines chapter_str (line_at lines (i s))
              (finditer CODE_PATTERN (line_at lines (i s))) s)
    as (new & Hrec & Hnew).
  exists new. simpl. split_and!; [done|done|done].
Qed.

Lemma step_unfold s :
  step lines chapter_str s
  = if bool_decide (i s < length lines) then body lines chapter_str s else s.
Proof. done. Qed.

Lemma while_loop_done fuel s :
  length lines ≤ i s → while_loop fuel lines chapter_str s = s.
Proof.
  intros Hi. destruct fuel; simpl; [done|].
  rewrite bool_decide_eq_false_2 by lia. done.
Qed.

Lemma while_loop_step fuel s :
  while_loop (S fuel) lines chapter_str s
  = while_loop fuel lines chapter_str (step lines chapter_str s).
Proof.
  simpl. unfold step. case_bool_decide; [done|].
  symmetry. apply while_loop_done. lia.
Qed.

(** The state after [S fuel] iterations is one iteration after the
    state after [fuel] iterations. *)
Lemma while_loop_S fuel s :
  while_loop (S fuel) lines chapter_str s
  = step lines chapter_str (while_loop fuel lines chapter_str s).
Proof.
  revert s; induction fuel as [|fuel IH]; intros s.
  - simpl. unfold step. by case_bool_decide.
  - rewrite while_loop_step, IH, <- while_loop_step. done.
Qed.

Lemma step_i s : i s ≤ i (step lines chapter_str s).
Proof.
  unfold step. case_bool_decide; [|done].
  pose proof (body_i_bounds s). lia.
Qed.

Lemma while_loop_i_mono n m s :
  n ≤ m →
  i (while_loop n lines chapter_str s) ≤ i (while_loop m lines chapter_str s).
Proof.
  induction 1 as [|m Hle IH]; [done|].
  rewrite while_loop_S. etrans; [apply IH|apply step_i].
Qed.

(** Each iteration moves the cursor, so [fuel] iterations move it by at
    least [fuel] lines unless the loop has ended. *)
Lemma while_loop_progress fuel s :
  length lines ≤ i (while_loop fuel lines chapter_str s)
  ∨ i s + fuel ≤ i (while_loop fuel lines chapter_str s).
Proof.
  induction fuel as [|fuel IH]; [right; simpl; lia|].
  rewrite while_loop_S. unfold step.
  destruct IH as [IH|IH].
  - rewrite bool_decide_eq_false_2 by lia. by left.
  - case_bool_decide; [|left; lia].
    pose proof (body_i_bounds (while_loop fuel lines chapter_str s)).
    right. lia.
Qed.

(** [len(lines)] iterations end the loop. *)
Lemma while_loop_terminates fuel s :
  length lines ≤ i s + fuel →
  length lines ≤ i (while_loop fuel lines chapter_str s).
Proof. destruct (while_loop_progress fuel s); lia. Qed.

(** More fuel than that changes nothing. *)
Lemma while_loop_stable n m s :
  length lines ≤ i s + n → n ≤ m →
  while_loop m lines chapter_str s = while_loop n lines chapter_str s.
Proof.
  intros Hn. induction 1 as [|m Hle IH]; [done|].
  rewrite while_loop_S, IH. unfold step.
  rewrite bool_decide_eq_false_2; [done|].
  pose proof (while_loop_terminates n s Hn). lia.
Qed.

Lemma step_records s :
  records s `prefix_of` records (step lines chapter_str s).
Proof.
  unfold step. case_bool_decide; [|done].
  destruct (body_records s) as (new & -> & _). by apply prefix_app_r.
Qed.

Lemma while_loop_records_prefix n m s :
  n ≤ m →
  records (while_loop n lines chapter_str s)
    `prefix_of` records (while_loop m lines chapter_str s).
Proof.
  induction 1 as [|m Hle IH]; [done|].
  rewrite while_loop_S. etrans; [apply IH|apply step_records].
Qed.

(** Whatever is in [records] at some iteration is in the result. *)
Lemma while_loop_records_final n r :
  r ∈ records (while_loop n lines chapter_str init_state) →
  r ∈ records (while_loop (length lines) lines chapter_str init_state).
Proof.
  intros Hr. destruct (decide (n ≤ length lines)) as [Hle|Hgt].
  - by eapply elem_of_prefix, while_loop_records_prefix.
  - rewrite <- (while_loop_stable (length lines) n); [done|simpl; lia|lia].
Qed.
End cursor.

(** ** Reading [classify] *)

Lemma classify_heading h line :
  classify h line = HeadingLine ↔
  nonempty line = true ∧ is_skipped line = false ∧ is_heading_line line = true.
Proof.
  unfold classify.
  destruct (nonempty line), (is_skipped line), (is_heading_line line),
    (is_subheading_line h line); simpl; intuition congruence.
Qed.

Lemma classify_subheading h line :
  classify h line = SubheadingLine ↔
  nonempty line = true ∧ is_skipped line = false
  ∧ is_heading_line line = false ∧ is_subheading_line h line = true.
Proof.
  unfold classify.
  destruct (nonempty line), (is_skipped line), (is_heading_line line),
    (is_subheading_line h line); simpl; intuition congruence.
Qed.

Lemma classify_code h line :
  classify h line = CodeLine ↔
  nonempty line = true ∧ is_skipped line = false
  ∧ is_heading_line line = false ∧ is_subheading_line h line = false.
Proof.
  unfold classify.
  destruct (nonempty line), (is_skipped line), (is_heading_line line),
    (is_subheading_line h line); simpl; intuition congruence.
Qed.

(** ** The invariant of the loop *)

Section invariant.
Context (lines : list string) (chapter_str : string).

Lemma loop_inv_init : loop_inv chapter_str init_state.
Proof.
  split; simpl.
  - intros k. rewrite elem_of_nil. set_solver.
  - constructor.
  - intros r Hr. by inversion Hr.
  - by left.
  - intros r Hr. by inversion Hr.
Qed.

Lemma loop_inv_advance n s :
  loop_inv chapter_str s → loop_inv chapter_str (advance n s).
Proof. intros []. by split. Qed.

Lemma loop_inv_on_match line s m :
  loop_inv chapter_str s →
  loop_inv chapter_str (on_match lines chapter_str line s m).
Proof.
  intros [Hseen Hnd Hch Hctx Hrows]. unfold on_match.
  case_bool_decide as Hk; [by split|].
  split; simpl.
  - intros k. rewrite fmap_app, elem_of_app, elem_of_union, elem_of_singleton,
      Hseen. simpl. rewrite list_elem_of_singleton. tauto.
  - apply NoDup_app. split_and!; [done| |apply NoDup_singleton].
    intros r Hr ->%list_elem_of_singleton. apply Hk, Hseen.
    by apply list_elem_of_fmap_2.
  - intros r [Hr| ->%list_elem_of_singleton]%elem_of_app; [by apply Hch|done].
  - done.
  - intros r [Hr| ->%list_elem_of_singleton]%elem_of_app; [by apply Hrows|done].
Qed.

Lemma loop_inv_foldl line ms s :
  loop_inv chapter_str s →
  loop_inv chapter_str (foldl (on_match lines chapter_str line) s ms).
Proof.
  revert s; induction ms as [|m ms IH]; intros s Hs; simpl; [done|].
  by apply IH, loop_inv_on_match.
Qed.

Lemma loop_inv_on_heading line s :
  loop_inv chapter_str s → loop_inv chapter_str (on_heading lines line s).
Proof.
  intros [Hseen Hnd Hch Hctx Hrows]. unfold on_heading.
  repeat case_match; split; simpl; try done; by left.
Qed.

Lemma loop_inv_on_subheading line s :
  is_subheading_line (current_heading s) line = true →
  loop_inv chapter_str s → loop_inv chapter_str (on_subheading lines line s).
Proof.
  intros Hsub [Hseen Hnd Hch Hctx Hrows].
  assert (subheading_ok (current_heading s) line) as Hok.
  { right. unfold is_subheading_line in Hsub.
    rewrite !andb_true_iff, bool_decide_eq_true in Hsub. tauto. }
  unfold on_subheading. repeat case_match; split; simpl; done.
Qed.

Lemma loop_inv_body s :
  loop_inv chapter_str s → loop_inv chapter_str (body lines chapter_str s).
Proof.
  intros Hs. rewrite body_unfold. simpl.
  destruct (kind_at lines s) eqn:K.
  - by apply loop_inv_advance.
  - by apply loop_inv_advance.
  - by apply loop_inv_on_heading.
  - apply loop_inv_on_subheading; [|done].
    by apply classify_subheading in K as (_ & _ & _ & ?).
  - by apply loop_inv_advance, loop_inv_foldl.
Qed.

Lemma loop_inv_while fuel s :
  loop_inv chapter_str s →
  loop_inv chapter_str (while_loop fuel lines chapter_str s).
Proof.
  revert s; induction fuel as [|fuel IH]; intros s Hs; simpl; [done|].
  case_bool_decide; [|done]. by apply IH, loop_inv_body.
Qed.
End invariant.

(** ** First occurrences *)

Lemma first_occurrences_from_elem earlier l x :
  x ∈ first_occurrences_from earlier l ↔ x ∈ l ∧ x ∉ earlier.
Proof.
  revert earlier; induction l as [|r l IH]; intros earlier; simpl.
  - rewrite !elem_of_nil. tauto.
  - case_bool_decide as Hr.
    + rewrite IH, elem_of_cons. naive_solver.
    + rewrite !elem_of_cons, IH, elem_of_app, list_elem_of_singleton.
      destruct (decide (x = r)); naive_solver.
Qed.

Lemma first_occurrences_from_NoDup earlier l :
  NoDup (first_occurrences_from earlier l).
Proof.
  revert earlier; induction l as [|r l IH]; intros earlier; simpl.
  - constructor.
  - case_bool_decide; [done|]. constructor; [|done].
    rewrite first_occurrences_from_elem, elem_of_app, list_elem_of_singleton.
    tauto.
Qed.

Lemma first_occurrences_from_snoc earlier l x :
  first_occurrences_from earlier (l ++ [x])
  = first_occurrences_from earlier l
    ++ (if bool_decide (x ∈ earlier ++ l) then [] else [x]).
Proof.
  revert earlier; induction l as [|r l IH]; intros earlier; simpl.
  - rewrite app_nil_r. by case_bool_decide.
  - case_bool_decide as Hr.
    + rewrite IH. f_equal.
      do 2 case_bool_decide; try done; exfalso; set_solver.
    + rewrite IH. simpl. do 2 f_equal.
      do 2 case_bool_decide; try done; exfalso; set_solver.
Qed.

Lemma first_occurrences_snoc l x :
  first_occurrences (l ++ [x])
  = first_occurrences l ++ (if bool_decide (x ∈ l) then [] else [x]).
Proof. apply first_occurrences_from_snoc. Qed.

Lemma first_occurrences_from_id earlier l :
  NoDup l → (∀ x, x ∈ l → x ∉ earlier) → first_occurrences_from earlier l = l.
Proof.
  revert earlier; induction l as [|r l IH]; intros earlier Hnd Hdisj; simpl;
    [done|].
  apply NoDup_cons in Hnd as [Hr Hnd].
  rewrite bool_decide_eq_false_2 by (apply Hdisj; by left).
  f_equal. apply IH; [done|].
  intros x Hx [Hin| ->%list_elem_of_singleton]%elem_of_app; [|done].
  by apply (Hdisj x); [right|].
Qed.

Lemma first_occurrences_id l : NoDup l → first_occurrences l = l.
Proof.
  intros Hnd. apply first_occurrences_from_id; [done|].
  intros x _ Hx. by inversion Hx.
Qed.

(** ** The global pass keeps the first occurrences *)

Lemma foldl_dedupe_step acc done rest :
  (∀ k, k ∈ acc.1 ↔ k ∈ key_of <$> done) →
  acc.2 = first_occurrences done →
  (foldl dedupe_step acc rest).2 = first_occurrences (done ++ rest).
Proof.
  revert acc done; induction rest as [|x rest IH]; intros [sn out] done;
    simpl; intros Hseen Hout.
  - by rewrite app_nil_r.
  - rewrite (IH _ (done ++ [x])); [by rewrite <- app_assoc| |].
    + unfold dedupe_step. simpl. intros k.
      case_bool_decide as Hk; simpl.
      * rewrite Hseen, fmap_app, elem_of_app. simpl.
        rewrite list_elem_of_singleton. apply Hseen in Hk.
        split; [tauto|]. by intros [?| ->].
      * rewrite elem_of_union, elem_of_singleton, Hseen, fmap_app, elem_of_app.
        simpl. rewrite list_elem_of_singleton. tauto.
    + unfold dedupe_step. simpl. rewrite first_occurrences_snoc.
      case_bool_decide as Hk; simpl.
      * apply Hseen, list_elem_of_fmap in Hk as (y & ->%(inj key_of) & Hy).
        rewrite bool_decide_eq_true_2 by done. by rewrite app_nil_r.
      * rewrite bool_decide_eq_false_2; [by rewrite Hout|].
        intros Hx. apply Hk, Hseen. by apply list_elem_of_fmap_2.
Qed.

Lemma global_dedupe_first_occurrences all :
  global_dedupe all = first_occurrences all.
Proof.
  unfold global_dedupe. apply (foldl_dedupe_step (∅, []) [] all); [|done].
  intros k. simpl. rewrite elem_of_nil. set_solver.
Qed.

Lemma NoDup_key_of l : NoDup l → NoDup (key_of <$> l).
Proof. apply NoDup_fmap_2, _. Qed.

(** ** The extractor keeps the first occurrences *)

Section first_wins.
Context (lines : list string) (chapter_str : string).

Lemma same_run_advance n s sa :
  same_run s sa → same_run (advance n s) (advance n sa).
Proof.
  intros (Hi & Hctx & Hrec & Hseen). unfold same_run, ctx_of in *. simpl.
  split_and!; [by rewrite Hi|done|done|done].
Qed.

Lemma same_run_on_match line s sa m :
  same_run s sa →
  same_run (on_match lines chapter_str line s m)
    (on_match_all lines chapter_str line sa m).
Proof.
  intros (Hi & Hctx & Hrec & Hseen).
  unfold on_match, on_match_all.
  rewrite (candidate_ext lines chapter_str line s sa m) by done.
  set (c := candidate lines chapter_str line sa m).
  unfold same_run, ctx_of in *. simpl. rewrite first_occurrences_snoc.
  case_bool_decide as Hk; simpl.
  - apply Hseen, list_elem_of_fmap in Hk as (y & ->%(inj key_of) & Hy).
    rewrite bool_decide_eq_true_2 by done. rewrite app_nil_r.
    split_and!; [done..|]. intros k. rewrite Hseen, fmap_app, elem_of_app.
    simpl. rewrite list_elem_of_singleton. split; [tauto|].
    intros [?| ->]; [done|]. by apply list_elem_of_fmap_2.
  - rewrite bool_decide_eq_false_2.
    + split_and!; [done|done|by rewrite Hrec|]. intros k.
      rewrite elem_of_union, elem_of_singleton, Hseen, fmap_app, elem_of_app.
      simpl. rewrite list_elem_of_singleton. tauto.
    + intros Hc. apply Hk, Hseen. by apply list_elem_of_fmap_2.
Qed.

Lemma same_run_foldl line ms s sa :
  same_run s sa →
  same_run (foldl (on_match lines chapter_str line) s ms)
    (foldl (on_match_all lines chapter_str line) sa ms).
Proof.
  revert s sa; induction ms as [|m ms IH]; intros s sa Hs; simpl; [done|].
  by apply IH, same_run_on_match.
Qed.

Lemma same_run_on_heading line s sa :
  same_run s sa →
  same_run (on_heading lines line s) (on_heading lines line sa).
Proof.
  intros (Hi & Hctx & Hrec & Hseen). unfold on_heading. rewrite Hi.
  unfold same_run, ctx_of in *.
  repeat case_match; simpl; (split_and!; [by rewrite ?Hi|done..]).
Qed.

Lemma same_run_on_subheading line s sa :
  same_run s sa →
  same_run (on_subheading lines line s) (on_subheading lines line sa).
Proof.
  intros (Hi & Hctx & Hrec & Hseen). unfold on_subheading. rewrite Hi.
  unfold same_run, ctx_of in *. simplify_eq.
  repeat case_match; simpl; (split_and!; [by rewrite ?Hi|congruence|done..]).
Qed.

Lemma same_run_body s sa :
  same_run s sa →
  same_run (body lines chapter_str s) (body_all lines chapter_str sa).
Proof.
  intros Hs. pose proof Hs as (Hi & Hctx & _).
  rewrite body_unfold, body_all_unfold. simpl.
  assert (kind_at lines s = kind_at lines sa) as <-.
  { unfold kind_at. rewrite Hi. unfold ctx_of in Hctx.
    injection Hctx as Hh _ _ _. by rewrite Hh. }
  rewrite <- Hi.
  destruct (kind_at lines s).
  - by apply same_run_advance.
  - by apply same_run_advance.
  - by apply same_run_on_heading.
  - by apply same_run_on_subheading.
  - by apply same_run_advance, same_run_foldl.
Qed.

Lemma same_run_while fuel s sa :
  same_run s sa →
  same_run (while_loop fuel lines chapter_str s)
    (while_loop_all fuel lines chapter_str sa).
Proof.
  revert s sa; induction fuel as [|fuel IH]; intros s sa Hs; simpl; [done|].
  pose proof Hs as (Hi & _). rewrite Hi.
  case_bool_decide; [|done]. by apply IH, same_run_body.
Qed.
End first_wins.

Lemma extract_first_occurrences text chapter :
  extract_hierarchy_from_text text chapter
  = first_occurrences (all_matches text chapter).
Proof.
  unfold extract_hierarchy_from_text, all_matches.
  apply same_run_while. unfold same_run. split_and!; [done..|].
  intros k. simpl. rewrite elem_of_nil. set_solver.
Qed.

(** ** The chapter loop *)

Lemma NoDup_fmap_eq {A B} (f : A → B) (l : list A) x y :
  NoDup (f <$> l) → x ∈ l → y ∈ l → f x = f y → x = y.
Proof.
  induction l as [|a l IH]; simpl; intros Hnd Hx Hy Hf; [by inversion Hx|].
  apply NoDup_cons in Hnd as [Ha Hnd].
  apply elem_of_cons in Hx as [->|Hx]; apply elem_of_cons in Hy as [->|Hy].
  - done.
  - exfalso. apply Ha. rewrite Hf. by apply list_elem_of_fmap_2.
  - exfalso. apply Ha. rewrite <- Hf. by apply list_elem_of_fmap_2.
  - by apply IH.
Qed.

Lemma format_02d_NoDup : NoDup (format_02d <$> seqZ 0 100).
Proof. apply (bool_decide_unpack _). by vm_compute. Qed.

(** Chapters from 0 to 99 have different two-digit strings. *)
Lemma format_02d_inj a b :
  (0 ≤ a < 100)%Z → (0 ≤ b < 100)%Z → format_02d a = format_02d b → a = b.
Proof.
  intros Ha Hb. apply (NoDup_fmap_eq _ _ _ _ format_02d_NoDup);
    apply elem_of_seqZ; lia.
Qed.

(** Every record of a chapter carries the chapter's string. *)
Lemma extract_chapter text n r :
  r ∈ extract_hierarchy_from_text text n → chapter r = format_02d n.
Proof.
  unfold extract_hierarchy_from_text.
  apply inv_chapter, loop_inv_while, loop_inv_init.
Qed.

Lemma extract_NoDup text n :
  NoDup (extract_hierarchy_from_text text n).
Proof.
  unfold extract_hierarchy_from_text.
  apply (inv_nodup (format_02d n)), loop_inv_while, loop_inv_init.
Qed.

Section chapters.
Context (fetch_chapter_text : Z → FetchResult).

Lemma foldl_main_body st cs :
  let st' := foldl (main_body fetch_chapter_text) st cs in
  all_records st' = all_records st ++ (cs ≫= hierarchy_of fetch_chapter_text)
  ∧ chapter_records st' = chapter_records st ++ (cs ≫= title_row_of fetch_chapter_text)
  ∧ ∀ c, c ∈ cs → fetching_line c ∈ stdout st'.
Proof.
  revert st; induction cs as [|c cs IH]; intros st; simpl.
  - rewrite !app_nil_r. split_and!; [done..|]. intros c Hc. by inversion Hc.
  - destruct (IH (main_body fetch_chapter_text st c)) as (Hall & Hch & Hout).
    rewrite Hall, Hch. split_and!.
    + unfold main_body, hierarchy_of.
      destruct (fetch_chapter_text c); simpl; by rewrite ?app_assoc.
    + unfold main_body, title_row_of.
      destruct (fetch_chapter_text c); simpl; by rewrite <- ?app_assoc.
    + intros c' [->|Hc']%elem_of_cons; [|by apply Hout].
      assert (∀ st1 cs1 l, l ∈ stdout st1 →
                l ∈ stdout (foldl (main_body fetch_chapter_text) st1 cs1))
        as Hkeep.
      { intros st1 cs1 l. revert st1.
        induction cs1 as [|c1 cs1 IH1]; intros st1 Hl; simpl; [done|].
        apply IH1. unfold main_body.
        destruct (fetch_chapter_text c1); simpl;
          rewrite !elem_of_app; by left; left. }
      apply Hkeep. unfold main_body, fetching_line.
      destruct (fetch_chapter_text c); simpl; rewrite !elem_of_app;
        left; right; by left.
Qed.

Lemma main_loop_all_records :
  all_records (main_loop fetch_chapter_text) = seqZ 1 99 ≫= hierarchy_of fetch_chapter_text.
Proof. unfold main_loop. by destruct (foldl_main_body
         {| all_records := []; chapter_records := []; stdout := [] |}
         (seqZ 1 99)) as (-> & _). Qed.

Lemma main_loop_chapter_records :
  chapter_records (main_loop fetch_chapter_text) = seqZ 1 99 ≫= title_row_of fetch_chapter_text.
Proof. unfold main_loop. by destruct (foldl_main_body
         {| all_records := []; chapter_records := []; stdout := [] |}
         (seqZ 1 99)) as (_ & -> & _). Qed.

Lemma main_loop_fetching c :
  (1 ≤ c ≤ 99)%Z → fetching_line c ∈ stdout (main_loop fetch_chapter_text).
Proof.
  intros Hc. unfold main_loop. apply foldl_main_body, elem_of_seqZ. lia.
Qed.

Lemma hierarchy_of_chapter c r :
  r ∈ hierarchy_of fetch_chapter_text c → chapter r = format_02d c.
Proof.
  unfold hierarchy_of. destruct (fetch_chapter_text c); try by inversion 1.
  apply extract_chapter.
Qed.

Lemma hierarchy_of_NoDup c : NoDup (hierarchy_of fetch_chapter_text c).
Proof.
  unfold hierarchy_of. destruct (fetch_chapter_text c); try constructor.
  apply extract_NoDup.
Qed.

Lemma deduped_records_elem r :
  r ∈ deduped_records fetch_chapter_text
  ↔ ∃ c, (1 ≤ c ≤ 99)%Z ∧ r ∈ hierarchy_of fetch_chapter_text c.
Proof.
  unfold deduped_records.
  rewrite global_dedupe_first_occurrences. unfold first_occurrences.
  rewrite first_occurrences_from_elem, main_loop_all_records,
    list_elem_of_bind.
  split.
  - intros [(c & Hr & Hc%elem_of_seqZ) _]. exists c. split; [lia|done].
  - intros (c & Hc & Hr). split; [|by inversion 1].
    exists c. split; [done|]. apply elem_of_seqZ. lia.
Qed.
End chapters.

(** ** Short lines *)

Lemma prefix_len p s : String.prefix p s = true → len p ≤ len s.
Proof.
  revert s; induction p as [|a p IH]; intros [|b s]; simpl; try done; [lia|].
  destruct (ascii_dec a b); [|done]. intros ?%IH. unfold len in *. lia.
Qed.

Lemma match_here_len pat prev s n :
  match_here pat prev s = Some n → n ≤ len s.
Proof.
  revert prev s n; induction pat as [|[|p] pat IH]; intros prev s n; simpl.
  - intros [= <-]. lia.
  - destruct (at_boundary prev s); [apply IH|done].
  - destruct s as [|c s]; [done|]. destruct (p c); [|done].
    destruct (match_here pat (Some c) s) as [k|] eqn:E; [|done].
    intros [= <-]. apply IH in E. unfold len in *. simpl. lia.
Qed.

Lemma match_here_width pat prev s n :
  match_here pat prev s = Some n → n = pattern_width pat.
Proof.
  revert prev s n; induction pat as [|[|p] pat IH]; intros prev s n; simpl.
  - by intros [= <-].
  - destruct (at_boundary prev s); [apply IH|done].
  - destruct s as [|c s]; [done|]. destruct (p c); [|done].
    destruct (match_here pat (Some c) s) as [k|] eqn:E; [|done].
    intros [= <-]. f_equal. by eapply IH.
Qed.

Lemma match_here_CODE_PATTERN prev s n :
  match_here CODE_PATTERN prev s = Some n → n = 16.
Proof. apply match_here_width. Qed.

(** A code match needs sixteen characters. *)
Lemma is_code_match_len line : is_code_match line = true → 16 ≤ len line.
Proof.
  unfold is_code_match, re_match. rewrite bool_decide_eq_true.
  destruct (match_here CODE_PATTERN None line) as [n|] eqn:E;
    [|by intros [? [=]]].
  intros _. pose proof (match_here_CODE_PATTERN _ _ _ E) as ->.
  by apply match_here_len in E.
Qed.

Lemma is_skipped_len line : is_skipped line = true → 7 ≤ len line.
Proof.
  unfold is_skipped. rewrite orb_true_iff, bool_decide_eq_true.
  intros [H%prefix_len|H].
  - unfold len in *. simpl in H. lia.
  - set_unfold in H. destruct H as [->|[->|[->|[]]]]; vm_compute; lia.
Qed.

Lemma is_heading_line_len line : is_heading_line line = true → len line = 4.
Proof.
  unfold is_heading_line. rewrite !andb_true_iff, bool_decide_eq_true. tauto.
Qed.

Lemma nonempty_len line : 0 < len line → nonempty line = true.
Proof. destruct line; [simpl; lia|done]. Qed.

(** * The claims *)

(** C3: in the final record list no two records share their 7-tuple
    (chapter, heading, heading_description, subheading,
    subheading_description, code, description); the global pass and, within
    each chapter, the extractor keep exactly the first occurrence of every
    record, in the order of first appearance. *)
Theorem C3_no_duplicate_records (fetch_chapter_text : Z → FetchResult) :
  NoDup (key_of <$> deduped_records fetch_chapter_text)
  ∧ deduped_records fetch_chapter_text
    = first_occurrences (all_records (main_loop fetch_chapter_text))
  ∧ ∀ text n,
      NoDup (key_of <$> extract_hierarchy_from_text text n)
      ∧ extract_hierarchy_from_text text n
        = first_occurrences (all_matches text n).
Proof.
  split_and!.
  - apply NoDup_key_of. unfold deduped_records.
    rewrite global_dedupe_first_occurrences.
    apply first_occurrences_from_NoDup.
  - apply global_dedupe_first_occurrences.
  - intros text n. split.
    + apply NoDup_key_of, extract_NoDup.
    + apply extract_first_occurrences.
Qed.

(** C4: every record emitted by extract_hierarchy_from_text has a subheading
    that is empty or a string of five digits that starts with the record's
    heading; and the heading and subheading of a record are the ones current
    in the iteration that emits it. *)
Theorem C4_subheading_extends_heading (text : string) (n : Z) :
  (∀ r, r ∈ extract_hierarchy_from_text text n →
     subheading r = ""
     ∨ (len (subheading r) = 5 ∧ isdigit (subheading r) = true
        ∧ startswith (subheading r) (heading r) = true))
  ∧ ∀ fuel r,
      let s := while_loop fuel (splitlines text) (format_02d n) init_state in
      r ∈ drop (length (records s))
            (records (step (splitlines text) (format_02d n) s)) →
      heading r = current_heading s ∧ subheading r = current_subheading s
      ∧ (current_subheading s = ""
         ∨ (len (current_subheading s) = 5
            ∧ isdigit (current_subheading s) = true
            ∧ startswith (current_subheading s) (current_heading s) = true)).
Proof.
  split.
  - intros r Hr. unfold extract_hierarchy_from_text in Hr.
    by eapply (inv_rows (format_02d n)); [apply loop_inv_while, loop_inv_init|].
  - intros fuel r s Hr.
    assert (loop_inv (format_02d n) s) as Hs
      by apply loop_inv_while, loop_inv_init.
    unfold step in Hr. case_bool_decide.
    + destruct (body_records (splitlines text) (format_02d n) s)
        as (new & Hrec & _ & Hnew).
      rewrite Hrec, drop_app_length in Hr.
      destruct (Hnew r Hr) as (m & _ & ->). simpl.
      split_and!; [done|done|apply Hs].
    + rewrite drop_all in Hr. by inversion Hr.
Qed.

Lemma C4_subheading_extends_heading_witness :
  let r := {| chapter := "01"; heading := "0101";
              heading_description := "Live horses";
              subheading := "01012"; subheading_description := "Horses";
              code := "0101210000-00-00"; description := "Pure-bred" |} in
  r ∈ extract_hierarchy_from_text
        (unlines ["0101"; "Live horses"; "01012"; "Horses";
                  "0101210000-00-00 Pure-bred"]) 1
  ∧ (subheading r = ""
     ∨ (len (subheading r) = 5 ∧ isdigit (subheading r) = true
        ∧ startswith (subheading r) (heading r) = true)).
Proof.
  intros r.
  assert (r ∈ extract_hierarchy_from_text
                (unlines ["0101"; "Live horses"; "01012"; "Horses";
                          "0101210000-00-00 Pure-bred"]) 1) as Hr.
  { vm_compute. left. }
  split; [exact Hr|].
  exact (proj1 (C4_subheading_extends_heading _ 1) r Hr).
Defined.

Lemma chapters_table_bind (fetch_chapter_text : Z → FetchResult) :
  chapters_table fetch_chapter_text
  = seqZ 1 99 ≫= title_row_of fetch_chapter_text.
Proof. unfold chapters_table. apply main_loop_chapter_records. Qed.

(** C7: when the fetch of a chapter fails, with an HTTP error or another
    request error, the run goes on: every chapter from 1 to 99 is still
    announced and fetched, every chapter fetched with success has its title
    row and its records in the output, and the failed chapter has no title
    row and no record in either table. *)
Theorem C7_failed_chapter_is_skipped
    (fetch_chapter_text : Z → FetchResult) (c : Z) :
  (1 ≤ c ≤ 99)%Z →
  (∀ text, fetch_chapter_text c ≠ Fetched text) →
  (∀ c', (1 ≤ c' ≤ 99)%Z →
     fetching_line c' ∈ stdout (main_loop fetch_chapter_text))
  ∧ (∀ c' text, (1 ≤ c' ≤ 99)%Z → fetch_chapter_text c' = Fetched text →
       {| chapter_id := format_02d c';
          chapter_title := extract_chapter_name text c' |}
         ∈ chapters_table fetch_chapter_text
       ∧ ∀ r, r ∈ extract_hierarchy_from_text text c' →
              r ∈ deduped_records fetch_chapter_text)
  ∧ (∀ row, row ∈ chapters_table fetch_chapter_text →
       chapter_id row ≠ format_02d c)
  ∧ (∀ r, r ∈ deduped_records fetch_chapter_text →
       chapter r ≠ format_02d c).
Proof.
  intros Hc Hfail. split_and!.
  - intros c' Hc'. by apply main_loop_fetching.
  - intros c' text Hc' Hfetch. split.
    + rewrite chapters_table_bind.
      apply list_elem_of_bind. exists c'. split; [|apply elem_of_seqZ; lia].
      unfold title_row_of. rewrite Hfetch. by left.
    + intros r Hr. apply deduped_records_elem. exists c'. split; [done|].
      unfold hierarchy_of. by rewrite Hfetch.
  - intros row Hrow Heq. rewrite chapters_table_bind in Hrow.
    apply list_elem_of_bind in Hrow as (c' & Hrow & Hc'%elem_of_seqZ).
    unfold title_row_of in Hrow.
    destruct (fetch_chapter_text c') as [text| |] eqn:Hfetch.
    2,3: by apply elem_of_nil in Hrow.
    apply list_elem_of_singleton in Hrow. subst row. cbn [chapter_id] in Heq.
    apply format_02d_inj in Heq; [|lia..]. subst c'.
    exact (Hfail _ Hfetch).
  - intros r (c' & Hc' & Hr)%deduped_records_elem Heq.
    pose proof (hierarchy_of_chapter _ _ _ Hr) as Hch.
    rewrite Heq in Hch. apply format_02d_inj in Hch; [|lia..]. subst c'.
    unfold hierarchy_of in Hr.
    destruct (fetch_chapter_text c) as [text| |] eqn:Hfetch.
    2,3: by apply elem_of_nil in Hr.
    by apply (Hfail text).
Qed.

Lemma C7_failed_chapter_is_skipped_witness :
  (∀ c', (1 ≤ c' ≤ 99)%Z →
     fetching_line c' ∈ stdout (main_loop sample_fetch))
  ∧ (∀ c' text, (1 ≤ c' ≤ 99)%Z → sample_fetch c' = Fetched text →
       {| chapter_id := format_02d c';
          chapter_title := extract_chapter_name text c' |}
         ∈ chapters_table sample_fetch
       ∧ ∀ r, r ∈ extract_hierarchy_from_text text c' →
              r ∈ deduped_records sample_fetch)
  ∧ (∀ row, row ∈ chapters_table sample_fetch →
       chapter_id row ≠ format_02d 2)
  ∧ (∀ r, r ∈ deduped_records sample_fetch → chapter r ≠ format_02d 2).
Proof.
  apply (C7_failed_chapter_is_skipped sample_fetch 2).
  - lia.
  - intros text. vm_compute. discriminate.
Defined.

(** ** The global pass on per-chapter outputs *)

Lemma chapter_outputs_elem chapters outputs r :
  Forall2 chapter_output_ok chapters outputs →
  r ∈ concat outputs → ∃ c, c ∈ chapters ∧ chapter r = format_02d c.
Proof.
  induction 1 as [|c recs cs outs [_ Hc] _ IH]; simpl; [by inversion 1|].
  intros [Hr|Hr]%elem_of_app.
  - exists c. split; [by left|by apply Hc].
  - destruct (IH Hr) as (c' & ? & ?). exists c'. split; [by right|done].
Qed.

Lemma chapter_outputs_NoDup chapters outputs :
  NoDup chapters → Forall (λ c, 0 ≤ c < 100)%Z chapters →
  Forall2 chapter_output_ok chapters outputs →
  NoDup (concat outputs).
Proof.
  intros Hnd Hrange Hok. revert Hnd Hrange.
  induction Hok as [|c recs cs outs [Hrecs Hc] Hok IH]; simpl;
    intros Hnd Hrange; [constructor|].
  apply NoDup_cons in Hnd as [Hc_fresh Hnd].
  apply Forall_cons in Hrange as [Hc_range Hrange].
  apply NoDup_app. split_and!.
  - by eapply NoDup_fmap_1.
  - intros r Hr Hr'.
    destruct (chapter_outputs_elem _ _ _ Hok Hr') as (c' & Hc' & Heq).
    rewrite (Hc r Hr) in Heq. apply format_02d_inj in Heq as ->; [done..|].
    by eapply Forall_forall in Hrange.
  - by apply IH.
Qed.

(** C8: for per-chapter outputs of different chapters (numbered 0 to 99),
    each without two records of the same 7-tuple and each carrying its
    chapter's two-digit string in every record, the global pass returns the
    concatenation of the outputs unchanged. *)
Theorem C8_global_pass_is_identity
    (chapters : list Z) (outputs : list (list Row)) :
  NoDup chapters →
  Forall (λ c, 0 ≤ c < 100)%Z chapters →
  Forall2 (λ c recs,
             NoDup (key_of <$> recs)
             ∧ ∀ r, r ∈ recs → chapter r = format_02d c) chapters outputs →
  global_dedupe (concat outputs) = concat outputs.
Proof.
  intros Hnd Hrange Hok. rewrite global_dedupe_first_occurrences.
  by eapply first_occurrences_id, chapter_outputs_NoDup.
Qed.

Lemma C8_global_pass_is_identity_witness :
  let out1 := extract_hierarchy_from_text
                (unlines ["0101"; "0101210000-00-00 Horses";
                          "0101210000-00-00 Horses"]) 1 in
  let out2 := extract_hierarchy_from_text
                (unlines ["0101"; "0101210000-00-00 Horses"]) 2 in
  global_dedupe (concat [out1; out2]) = concat [out1; out2].
Proof.
  intros out1 out2. apply (C8_global_pass_is_identity [1; 2]%Z).
  - apply (bool_decide_unpack _). by vm_compute.
  - repeat constructor; lia.
  - constructor; [split|constructor; [split|constructor]].
    + apply NoDup_key_of, extract_NoDup.
    + intros r. apply extract_chapter.
    + apply NoDup_key_of, extract_NoDup.
    + intros r. apply extract_chapter.
Defined.

(** In the program itself the outputs are those of chapters 1 to 99, so the
    global pass changes nothing. *)
Lemma main_global_pass_is_identity (fetch_chapter_text : Z → FetchResult) :
  deduped_records fetch_chapter_text
  = all_records (main_loop fetch_chapter_text).
Proof.
  unfold deduped_records. rewrite global_dedupe_first_occurrences.
  apply first_occurrences_id. rewrite main_loop_all_records.
  apply NoDup_bind.
  - intros c1 c2 r Hc1%elem_of_seqZ Hc2%elem_of_seqZ Hr1 Hr2.
    apply hierarchy_of_chapter in Hr1, Hr2. rewrite Hr1 in Hr2.
    apply format_02d_inj in Hr2; [done|lia..].
  - intros c _. apply hierarchy_of_NoDup.
  - apply NoDup_seqZ.
Qed.

(** C9: extraction is deterministic.  Equal arguments give equal record
    lists and equal titles; the loop ends within [len(lines)] iterations, and
    the records do not depend on how many more iterations it is allowed. *)
Theorem C9_extraction_deterministic (text1 text2 : string) (n1 n2 : Z) :
  text1 = text2 → n1 = n2 →
  extract_hierarchy_from_text text1 n1 = extract_hierarchy_from_text text2 n2
  ∧ extract_chapter_name text1 n1 = extract_chapter_name text2 n2
  ∧ length (splitlines text1)
    ≤ i (while_loop (length (splitlines text1)) (splitlines text1)
           (format_02d n1) init_state)
  ∧ ∀ fuel, length (splitlines text1) ≤ fuel →
      records (while_loop fuel (splitlines text1) (format_02d n1) init_state)
      = extract_hierarchy_from_text text2 n2.
Proof.
  intros <- <-. split_and!; [done|done| |].
  - by apply while_loop_terminates.
  - intros fuel Hfuel. unfold extract_hierarchy_from_text.
    by rewrite (while_loop_stable _ _ (length (splitlines text1)) fuel).
Qed.

Lemma C9_extraction_deterministic_witness :
  let text := unlines ["CHAPTER 01"; "0101"; "0101210000-00-00 Horses"] in
  extract_hierarchy_from_text text 1 = extract_hierarchy_from_text text 1
  ∧ extract_chapter_name text 1 = extract_chapter_name text 1
  ∧ length (splitlines text)
    ≤ i (while_loop (length (splitlines text)) (splitlines text)
           (format_02d 1) init_state)
  ∧ ∀ fuel, length (splitlines text) ≤ fuel →
      records (while_loop fuel (splitlines text) (format_02d 1) init_state)
      = extract_hierarchy_from_text text 1.
Proof.
  intros text.
  apply (C9_extraction_deterministic text text 1 1); reflexivity.
Defined.

(** C10: while the current heading is empty, a line of five digits that is
    not a code match is taken as subheading, and the heading stays empty; so
    a record can carry a subheading and no heading, as for the text
    "01012" / "0101210000-00-00 Horses". *)
Theorem C10_subheading_without_heading :
  (∀ lines chapter_str s,
     i s < length lines →
     current_heading s = "" →
     len (line_at lines (i s)) = 5 →
     isdigit (line_at lines (i s)) = true →
     is_code_match (line_at lines (i s)) = false →
     current_subheading (body lines chapter_str s) = line_at lines (i s)
     ∧ current_heading (body lines chapter_str s) = "")
  ∧ extract_hierarchy_from_text
      (unlines ["01012"; "0101210000-00-00 Horses"]) 1
    = [{| chapter := "01"; heading := ""; heading_description := "";
          subheading := "01012"; subheading_description := "";
          code := "0101210000-00-00"; description := "Horses" |}].
Proof.
  split; [|by vm_compute].
  intros lines chapter_str s Hi Hh Hlen Hdig Hcode.
  assert (kind_at lines s = SubheadingLine) as K.
  { apply classify_subheading. split_and!.
    - apply nonempty_len. lia.
    - destruct (is_skipped _) eqn:E; [|done].
      apply is_skipped_len in E. lia.
    - destruct (is_heading_line _) eqn:E; [|done].
      apply is_heading_line_len in E. lia.
    - unfold is_subheading_line.
      rewrite Hh, startswith_empty, Hdig, Hcode, bool_decide_eq_true_2; done. }
  rewrite body_unfold, K. cbn zeta. unfold on_subheading.
  repeat case_match; done.
Qed.

Lemma C10_subheading_without_heading_witness :
  let lines := ["01012"; "0101210000-00-00 Horses"] in
  current_subheading (body lines "01" init_state) = line_at lines 0
  ∧ current_heading (body lines "01" init_state) = "".
Proof.
  intros lines.
  apply (proj1 C10_subheading_without_heading lines "01" init_state).
  - simpl. lia.
  - reflexivity.
  - reflexivity.
  - reflexivity.
  - reflexivity.
Defined.

(** C1, as the code has it: in step 4 the following line is only read.  On
    a line scanned for codes the cursor moves by exactly one line and the
    context is kept, whether or not a match took its description from the
    following line; the cursor moves by two lines only when a heading or
    subheading line takes the following line as its description. *)
Theorem C1_code_line_advances_by_one
    (lines : list string) (chapter_str : string) (s : LoopState) :
  i s < length lines →
  (nonempty (line_at lines (i s)) = true
   ∧ is_skipped (line_at lines (i s)) = false
   ∧ is_heading_line (line_at lines (i s)) = false
   ∧ is_subheading_line (current_heading s) (line_at lines (i s)) = false →
   i (body lines chapter_str s) = i s + 1
   ∧ ctx_of (body lines chapter_str s) = ctx_of s)
  ∧ (i (body lines chapter_str s) = i s + 2 →
     (is_heading_line (line_at lines (i s)) = true
      ∨ is_subheading_line (current_heading s) (line_at lines (i s)) = true)
     ∧ is_description_line (line_at lines (i s + 1)) = true).
Proof.
  intros Hi. split.
  - intros K%classify_code. fold (kind_at lines s) in K.
    rewrite body_unfold, K. cbn zeta.
    destruct (foldl_on_match_frame lines chapter_str (line_at lines (i s))
                (finditer CODE_PATTERN (line_at lines (i s))) s) as [Hi' Hctx].
    split; [simpl; by rewrite Hi'|]. by rewrite <- Hctx.
  - intros Hi2. destruct (body_i lines chapter_str s) as [?|(_ & K & _ & D)];
      [lia|]. split; [|done].
    destruct K as [K|K].
    + left. by apply classify_heading in K as (_ & _ & ?).
    + right. by apply classify_subheading in K as (_ & _ & _ & ?).
Qed.

Lemma C1_code_line_advances_by_one_witness :
  let lines := ["0101210000-00-00"; "0102"; "0102900000-00-00 x"] in
  i (body lines "01" init_state) = 1
  ∧ ctx_of (body lines "01" init_state) = ctx_of init_state.
Proof.
  intros lines.
  apply (proj1 (C1_code_line_advances_by_one lines "01" init_state
                  ltac:(simpl; lia))).
  by vm_compute.
Defined.

(** C1 as stated fails: the line "0101210000-00-00" has one match with an
    empty remainder, its record takes the description "0102" from the
    following line, and the cursor is then on that line, not past it; the
    next iteration takes the line as a heading, which the second record
    carries. *)
Lemma C1_counterexample :
  let lines := ["0101210000-00-00"; "0102"; "0102900000-00-00 x"] in
  let s1 := body lines "01" init_state in
  finditer CODE_PATTERN (line_at lines 0) = [{| m_start := 0; m_end := 16 |}]
  ∧ slice_from 16 (line_at lines 0) = ""
  ∧ records s1
    = [{| chapter := "01"; heading := ""; heading_description := "";
          subheading := ""; subheading_description := "";
          code := "0101210000-00-00"; description := "0102" |}]
  ∧ i s1 = 1 ∧ i s1 ≠ 2
  ∧ kind_at lines s1 = HeadingLine
  ∧ extract_hierarchy_from_text (unlines lines) 1
    = [{| chapter := "01"; heading := ""; heading_description := "";
          subheading := ""; subheading_description := "";
          code := "0101210000-00-00"; description := "0102" |};
       {| chapter := "01"; heading := "0102"; heading_description := "";
          subheading := ""; subheading_description := "";
          code := "0102900000-00-00"; description := "x" |}].
Proof. vm_compute. split_and!; done. Qed.

(** ** Stripping *)

Lemma rstrip_by_idemp p s : rstripped p (rstrip_by p s).
Proof.
  unfold rstripped. induction s as [|c s IH]; simpl; [done|].
  destruct (rstrip_by p s) as [|d r] eqn:E.
  - destruct (p c) eqn:Hc; simpl; [done|]. by rewrite Hc.
  - simpl. simpl in IH. by rewrite IH.
Qed.

Lemma rstripped_tail p c s : rstripped p (String c s) → rstripped p s.
Proof.
  unfold rstripped. simpl. destruct (rstrip_by p s) as [|d r] eqn:E.
  - destruct (p c); [done|]. by intros [= <-].
  - by intros [= <-].
Qed.

Lemma rstripped_slice_from p n s : rstripped p s → rstripped p (slice_from n s).
Proof.
  revert s; induction n as [|n IH]; intros [|c s] Hs; simpl; try done.
  by eapply IH, rstripped_tail.
Qed.

Lemma lstrip_by_suffix p s : ∃ n, lstrip_by p s = slice_from n s.
Proof.
  induction s as [|c s [n IH]]; simpl.
  - by exists 0.
  - destruct (p c); [by exists (S n)|by exists 0].
Qed.

Lemma strip_rstripped s : rstripped isspace_char (strip s).
Proof. apply rstrip_by_idemp. Qed.

(** On the rest of a stripped line, [strip] only removes leading white
    space. *)
Lemma strip_slice_from n s :
  strip (slice_from n (strip s))
  = lstrip_by isspace_char (slice_from n (strip s)).
Proof.
  unfold strip at 1.
  destruct (lstrip_by_suffix isspace_char (slice_from n (strip s))) as [k ->].
  apply rstripped_slice_from, rstripped_slice_from, strip_rstripped.
Qed.

Lemma all_chars_app p s t :
  all_chars p (s +:+ t) = all_chars p s && all_chars p t.
Proof.
  induction s as [|c s IH]; rewrite ?app_String, ?app_empty_l; simpl; [done|].
  by rewrite IH, andb_assoc.
Qed.

(** ** Records of a line scanned for codes *)

Lemma line_at_out_of_range lines idx :
  length lines ≤ idx → line_at lines idx = "".
Proof. intros H. unfold line_at. by rewrite lookup_ge_None_2. Qed.

Lemma line_at_nonempty lines idx :
  nonempty (line_at lines idx) = true → idx < length lines.
Proof.
  intros H. destruct (decide (idx < length lines)); [done|].
  rewrite line_at_out_of_range in H by lia. done.
Qed.

(** On a line scanned for codes, every match has its record in the result:
    the one appended in this iteration, or an equal one appended before. *)
Lemma code_line_records text n fuel m :
  let lines := splitlines text in
  let s := while_loop fuel lines (format_02d n) init_state in
  let line := line_at lines (i s) in
  i s < length lines →
  kind_at lines s = CodeLine →
  m ∈ finditer CODE_PATTERN line →
  candidate lines (format_02d n) line s m ∈ extract_hierarchy_from_text text n.
Proof.
  intros lines s line Hi K Hm. unfold extract_hierarchy_from_text.
  apply (while_loop_records_final _ _ (S fuel)).
  rewrite while_loop_S. fold lines s. unfold step.
  rewrite bool_decide_eq_true_2 by done.
  rewrite body_unfold, K. cbn zeta. cbn [records advance]. fold line.
  apply foldl_on_match_present; [|done].
  intros k Hk. by apply (inv_seen (format_02d n)), Hk;
    apply loop_inv_while, loop_inv_init.
Qed.

(** ** Which lines the cursor visits *)

Section visits.
Context (lines : list string) (chapter_str : string).

(** The cursor stops on every line that a heading or subheading line
  cannot take as its description. *)
Lemma cursor_reaches j s :
i s ≤ j → j < length lines →
is_description_line (line_at lines j) = false →
∃ k, i (while_loop k lines chapter_str s) = j.
Proof.
intros Hle Hj Hnd. remember (j - i s) as d eqn:Hd.
revert s Hle Hd. induction (lt_wf d) as [d _ IH]. intros s Hle Hd.
destruct (decide (i s = j)) as [Heq|Hne]; [by exists 0|].
destruct (body_i lines chapter_str s) as [Hi|(Hi & _ & _ & Hdesc)].
- destruct (IH (j - i (body lines chapter_str s)) ltac:(lia)
              (body lines chapter_str s) ltac:(lia) eq_refl) as [k Hk].
  exists (S k). simpl. rewrite bool_decide_eq_true_2 by lia. done.
- destruct (decide (i s + 1 = j)) as [Heq|Hne'].
  { rewrite Heq in Hdesc. congruence. }
  destruct (IH (j - i (body lines chapter_str s)) ltac:(lia)
              (body lines chapter_str s) ltac:(lia) eq_refl) as [k Hk].
  exists (S k). simpl. rewrite bool_decide_eq_true_2 by lia. done.
Qed.

(** Only a heading line changes the heading and its description. *)
Lemma body_keeps_heading s :
kind_at lines s ≠ HeadingLine →
current_heading (body lines chapter_str s) = current_heading s
∧ current_heading_desc (body lines chapter_str s) = current_heading_desc s.
Proof.
intros K. rewrite body_unfold. cbn zeta.
destruct (kind_at lines s); try done.
- unfold on_subheading. by repeat case_match.
- destruct (foldl_on_match_frame lines chapter_str (line_at lines (i s))
              (finditer CODE_PATTERN (line_at lines (i s))) s) as [_ Hctx].
  unfold ctx_of in Hctx. cbn [advance current_heading current_heading_desc].
  by injection Hctx as -> -> _ _.
Qed.

Lemma step_keeps_heading s :
is_heading_line (line_at lines (i s)) = false →
current_heading (step lines chapter_str s) = current_heading s
∧ current_heading_desc (step lines chapter_str s) = current_heading_desc s.
Proof.
intros H. unfold step. case_bool_decide; [|done].
apply body_keeps_heading. intros K.
apply classify_heading in K as (_ & _ & K). congruence.
Qed.

(** A heading line followed by a description line. *)
Lemma on_heading_with_description line s :
is_description_line (line_at lines (i s + 1)) = true →
i (on_heading lines line s) = i s + 2
∧ ctx_of (on_heading lines line s)
  = (line, line_at lines (i s + 1), "", "").
Proof.
intros Hd. unfold on_heading, line_at in *.
destruct (lines !! (i s + 1)) as [raw|] eqn:E; simpl in *.
- rewrite Hd. done.
- done.
Qed.

(** The records of an iteration carry the context of its start. *)
Lemma step_new_records s r :
r ∈ drop (length (records s)) (records (step lines chapter_str s)) →
heading r = current_heading s
∧ heading_description r = current_heading_desc s
∧ subheading r = current_subheading s
∧ subheading_description r = current_subheading_desc s
∧ chapter r = chapter_str.
Proof.
unfold step. case_bool_decide.
- destruct (body_records lines chapter_str s) as (new & -> & _ & Hnew).
  rewrite drop_app_length. intros (m & _ & ->)%Hnew. done.
- rewrite drop_all. by intros ?%elem_of_nil.
Qed.
End visits.

(** C6: when the line "0101" is followed by the line
    "Live horses, asses, mules and hinnies", the cursor stops on the first,
    which sets the heading to "0101", its description to the second line and
    the subheading and its description to the empty string, and steps over
    the second, on which the cursor never stops; every record appended
    after that and before the next heading line carries this heading and
    this heading description. *)
Theorem C6_heading_and_description (text : string) (n : Z) (j : nat) :
  let lines := splitlines text in
  let state k := while_loop k lines (format_02d n) init_state in
  let desc := "Live horses, asses, mules and hinnies" in
  line_at lines j = "0101" →
  line_at lines (j + 1) = desc →
  ∃ k,
    i (state k) = j
    ∧ i (state (S k)) = j + 2
    ∧ ctx_of (state (S k)) = ("0101", desc, "", "")
    ∧ (∀ k', i (state k') ≠ j + 1)
    ∧ ∀ k', k < k' →
        (∀ k'', k < k'' < k' →
           is_heading_line (line_at lines (i (state k''))) = false) →
        current_heading (state k') = "0101"
        ∧ current_heading_desc (state k') = desc
        ∧ ∀ r, r ∈ drop (length (records (state k')))
                     (records (state (S k'))) →
               heading r = "0101" ∧ heading_description r = desc.
Proof.
  intros lines state desc Hj Hj1.
  assert (j < length lines) as Hlt.
  { apply line_at_nonempty. by rewrite Hj. }
  destruct (cursor_reaches lines (format_02d n) j init_state) as [k Hk].
  { simpl. lia. } { done. } { by rewrite Hj. }
  fold (state k) in Hk.
  assert (i (state (S k)) = j + 2
          ∧ ctx_of (state (S k)) = ("0101", desc, "", "")) as [Hi2 Hctx].
  { unfold state. rewrite while_loop_S. fold (state k). unfold step.
    rewrite bool_decide_eq_true_2 by lia.
    rewrite body_unfold. unfold kind_at. rewrite Hk, Hj.
    replace (classify (current_heading (state k)) "0101") with HeadingLine
      by done.
    cbn zeta. rewrite <- Hk.
    destruct (on_heading_with_description lines "0101" (state k))
      as [-> ->]; [by rewrite Hk, Hj1|].
    by rewrite Hk, Hj1. }
  exists k. split_and!; [done..| |].
  - intros k' Hk'. destruct (decide (k' ≤ k)) as [Hle|Hgt].
    + pose proof (while_loop_i_mono lines (format_02d n) k' k init_state Hle).
      fold (state k') (state k) in *. lia.
    + pose proof (while_loop_i_mono lines (format_02d n) (S k) k' init_state
                    ltac:(lia)).
      fold (state k') (state (S k)) in *. lia.
  - intros k' Hk' Hnone.
    assert (current_heading (state k') = "0101"
            ∧ current_heading_desc (state k') = desc) as [Hh Hd].
    { induction Hk' as [|k' Hk' IH].
      - unfold ctx_of in Hctx. by injection Hctx as -> -> _ _.
      - destruct IH as [IH1 IH2]; [intros k'' ?; apply Hnone; lia|].
        unfold state. rewrite while_loop_S. fold (state k').
        destruct (step_keeps_heading lines (format_02d n) (state k'))
          as [-> ->]; [apply Hnone; lia|done]. }
    split_and!; [done..|]. intros r Hr.
    unfold state in Hr. rewrite (while_loop_S _ _ k') in Hr.
    fold (state k') in Hr.
    apply step_new_records in Hr as (-> & -> & _). done.
Qed.

Lemma C6_heading_and_description_witness :
  let text := unlines ["CHAPTER 01"; "0101";
                       "Live horses, asses, mules and hinnies";
                       "0101210000-00-00 Horses"] in
  let lines := splitlines text in
  let state k := while_loop k lines (format_02d 1) init_state in
  let desc := "Live horses, asses, mules and hinnies" in
  ∃ k,
    i (state k) = 1
    ∧ i (state (S k)) = 1 + 2
    ∧ ctx_of (state (S k)) = ("0101", desc, "", "")
    ∧ (∀ k', i (state k') ≠ 1 + 1)
    ∧ ∀ k', k < k' →
        (∀ k'', k < k'' < k' →
           is_heading_line (line_at lines (i (state k''))) = false) →
        current_heading (state k') = "0101"
        ∧ current_heading_desc (state k') = desc
        ∧ ∀ r, r ∈ drop (length (records (state k')))
                     (records (state (S k'))) →
               heading r = "0101" ∧ heading_description r = desc.
Proof.
  intros text lines state desc.
  apply (C6_heading_and_description text 1 1); reflexivity.
Defined.

(** ** Finding a code in a line *)

Lemma match_here_no_space pat prev s n :
  avoids_space pat → match_here pat prev s = Some n →
  all_chars not_space (slice_to n s) = true.
Proof.
  intros Hpat. revert prev s n.
  induction Hpat as [|[|p] pat Ha _ IH]; intros prev s n; simpl.
  - by intros [= <-].
  - destruct (at_boundary prev s); [apply IH|done].
  - destruct s as [|c s]; [done|]. destruct (p c) eqn:Hc; [|done].
    destruct (match_here pat (Some c) s) as [k|] eqn:E; [|done].
    intros [= <-]. simpl. unfold not_space at 1.
    rewrite (Ha c Hc). simpl. by eapply IH.
Qed.

Lemma CODE_PATTERN_avoids_space : avoids_space CODE_PATTERN.
Proof.
  unfold avoids_space, CODE_PATTERN. simpl.
  repeat constructor; first [apply code_char_not_space|apply hyphen_not_space].
Qed.

Lemma last_char_nonempty prev prev' s :
  s ≠ "" → last_char prev s = last_char prev' s.
Proof. by destruct s. Qed.

(** A match that starts right after [pre] is found by [finditer], when [pre]
    is empty or ends with white space: no earlier match reaches over the
    white space. *)
Lemma finditer_go_finds pre pos skip prev rest :
  all_chars not_space (slice_to skip (pre +:+ rest)) = true →
  (pre = "" → skip = 0) →
  (∀ c, pre ≠ "" → last_char prev pre = Some c → isspace_char c = true) →
  match_here CODE_PATTERN (last_char prev pre) rest = Some 16 →
  {| m_start := pos + len pre; m_end := pos + len pre + 16 |}
    ∈ finditer_go CODE_PATTERN pos skip prev (pre +:+ rest).
Proof.
  revert pos skip prev.
  induction pre as [|c pre IH]; intros pos skip prev Hnw Hskip Hlast Hm.
  - rewrite (Hskip eq_refl), app_empty_l. cbn [last_char] in Hm.
    pose proof (match_here_len _ _ _ _ Hm) as Hlen.
    destruct rest as [|d rest]; [unfold len in Hlen; simpl in Hlen; lia|].
    cbn [finditer_go]. rewrite Hm. unfold len. cbn [String.length].
    rewrite Nat.add_0_r. by left.
  - rewrite app_String. cbn [finditer_go]. cbn [last_char] in Hm.
    assert (∀ k, all_chars not_space (slice_to (S k) (String c (pre +:+ rest)))
                 = true →
              {| m_start := pos + len (String c pre);
                 m_end := pos + len (String c pre) + 16 |}
                ∈ finditer_go CODE_PATTERN (S pos) k (Some c) (pre +:+ rest))
      as Hgo.
    { intros k Hk. cbn [slice_to all_chars] in Hk.
      apply andb_true_iff in Hk as [Hc Hk].
      replace (pos + len (String c pre)) with (S pos + len pre)
        by (unfold len; cbn [String.length]; lia).
      apply IH; [done| | |done].
      - intros ->. exfalso. unfold not_space in Hc.
        rewrite (Hlast c) in Hc; done.
      - intros d Hpre Hd. by apply Hlast. }
    assert ({| m_start := pos + len (String c pre);
               m_end := pos + len (String c pre) + 16 |}
              ∈ finditer_go CODE_PATTERN (S pos) 0 (Some c) (pre +:+ rest))
      as Hgo0.
    { replace (pos + len (String c pre)) with (S pos + len pre)
        by (unfold len; cbn [String.length]; lia).
      destruct (decide (pre = "")) as [->|Hpre].
      - apply IH; [done|done|done|done].
      - apply IH; [done|done| |done]. intros d _ Hd. by apply Hlast. }
    destruct skip as [|k].
    + destruct (match_here CODE_PATTERN prev (String c (pre +:+ rest)))
        as [[|w]|] eqn:E; [done| |done].
      right. apply Hgo.
      pose proof (match_here_CODE_PATTERN _ _ _ E) as [= ->].
      exact (match_here_no_space _ _ _ _ CODE_PATTERN_avoids_space E).
    + apply Hgo. by rewrite app_String in Hnw.
Qed.

Lemma is_word_space_before pre :
  (∀ c, last_char None pre = Some c → isspace_char c = true) →
  is_word (last_char None pre) = false.
Proof.
  intros H. destruct (last_char None pre) as [c|]; [|done].
  simpl. apply isspace_not_word. by apply H.
Qed.

(** A token of the code shape with digits at both ends is matched where it
    stands, when the character before it is not a word character and the
    character after it, if any, is white space. *)
Lemma code_token_matches prev tok post :
  code_shape tok → digit_ends tok →
  is_word prev = false →
  (∀ c, first_char post = Some c → isspace_char c = true) →
  match_here CODE_PATTERN prev (tok +:+ post) = Some 16.
Proof.
  intros (g1 & g2 & g3 & -> & H1 & H2 & H3 & A1 & A2 & A3)
         [(c1 & Hc1 & D1) (c16 & Hc16 & D16)] Hprev Hpost.
  unfold len in *.
  destruct g1 as [|a1 [|a2 [|a3 [|a4 [|a5 [|a6 [|a7 [|a8 [|a9 [|a10 [|]]]]]]]]]]];
    try discriminate.
  destruct g2 as [|b1 [|b2 [|]]]; try discriminate.
  destruct g3 as [|d1 [|d2 [|]]]; try discriminate.
  cbn [all_chars] in A1, A2, A3.
  repeat match goal with
         | H : _ && _ = true |- _ => apply andb_true_iff in H as [? ?]
         end.
  cbn in Hc1, Hc16. injection Hc1 as <-. injection Hc16 as <-.
  repeat (rewrite app_String || rewrite app_empty_l).
  unfold CODE_PATTERN. cbn [replicate app match_here].
  unfold at_boundary at 1. cbn [first_char is_word].
  rewrite Hprev, (ascii_digit_word a1 D1). cbn [xorb].
  repeat match goal with
         | H : code_char ?c = true |- context [code_char ?c] => rewrite H
         end.
  replace (hyphen "-") with true by done.
  unfold at_boundary. cbn [is_word].
  rewrite (ascii_digit_word d2 D16).
  destruct post as [|e post]; cbn [first_char is_word].
  - done.
  - rewrite (isspace_not_word e) by (by apply Hpost). done.
Qed.

(** A line that starts with a code is not skipped and is neither a heading
    nor a subheading line. *)
Lemma code_match_first_char line :
  is_code_match line = true →
  ∃ c rest, line = String c rest ∧ code_char c = true.
Proof.
  unfold is_code_match, re_match. rewrite bool_decide_eq_true.
  intros [m Hm]. apply fmap_Some in Hm as (n & Hn & _).
  unfold CODE_PATTERN in Hn. cbn [replicate app match_here] in Hn.
  destruct (at_boundary None line); [|done].
  destruct line as [|c rest]; [done|].
  destruct (code_char c) eqn:Hc; [|done]. eauto.
Qed.

Lemma code_match_not_skipped line :
  is_code_match line = true → is_skipped line = false.
Proof.
  intros (c & rest & -> & Hc)%code_match_first_char.
  unfold is_skipped, startswith. apply orb_false_iff. split.
  - cbn [String.prefix]. destruct (ascii_dec _ c) as [<-|]; done.
  - apply bool_decide_eq_false. set_unfold. intros [H|[H|[H|[]]]];
      injection H as -> _; by vm_compute in Hc.
Qed.

Lemma code_match_kind h line :
  is_code_match line = true → classify h line = CodeLine.
Proof.
  intros Hm. pose proof (is_code_match_len _ Hm) as Hlen.
  apply classify_code. split_and!.
  - apply nonempty_len. lia.
  - by apply code_match_not_skipped.
  - destruct (is_heading_line line) eqn:E; [|done].
    apply is_heading_line_len in E. lia.
  - unfold is_subheading_line. rewrite Hm. cbn [negb]. by rewrite andb_false_r.
Qed.

Lemma code_match_not_description line :
  is_code_match line = true → is_description_line line = false.
Proof.
  intros Hm. unfold is_description_line. rewrite Hm. cbn [negb].
  by rewrite andb_false_r.
Qed.

(** C2, as the code has it: on a line that the loop scans for codes, a token
    of the shape 10-2-2 of digits and '*' whose first and last characters
    are digits, and which stands between white space or the ends of the
    line, is matched by the code pattern where it stands, and the result
    has a record whose code is the token.  Every line that starts with a
    code is scanned for codes. *)
Theorem C2_standalone_code_is_recorded :
  (∀ text n fuel pre tok post,
     let lines := splitlines text in
     let s := while_loop fuel lines (format_02d n) init_state in
     let line := line_at lines (i s) in
     let m := {| m_start := len pre; m_end := len pre + 16 |} in
     i s < length lines →
     is_skipped line = false ∧ is_heading_line line = false
     ∧ is_subheading_line (current_heading s) line = false →
     line = pre +:+ tok +:+ post →
     code_shape tok → digit_ends tok →
     (∀ c, last_char None pre = Some c → isspace_char c = true) →
     (∀ c, first_char post = Some c → isspace_char c = true) →
     m ∈ finditer CODE_PATTERN line
     ∧ group0 line m = tok
     ∧ ∃ r, r ∈ extract_hierarchy_from_text text n ∧ code r = tok)
  ∧ (∀ text n j,
       let lines := splitlines text in
       is_code_match (line_at lines j) = true →
       ∃ fuel,
         let s := while_loop fuel lines (format_02d n) init_state in
         i s = j ∧ j < length lines
         ∧ is_skipped (line_at lines j) = false
         ∧ is_heading_line (line_at lines j) = false
         ∧ is_subheading_line (current_heading s) (line_at lines j) = false).
Proof.
  split.
  - intros text n fuel pre tok post lines s line m Hi (Hsk & Hh & Hsub)
           Hline Hshape Hends Hpre Hpost.
    assert (len tok = 16) as Htok.
    { destruct Hshape as (g1 & g2 & g3 & -> & H1 & H2 & H3 & _).
      rewrite !len_app, H1, H2, H3. done. }
    assert (m ∈ finditer CODE_PATTERN line) as Hm.
    { rewrite Hline. unfold finditer, m.
      apply (finditer_go_finds pre 0 0 None (tok +:+ post)).
      - done.
      - done.
      - intros c Hne Hc. by apply Hpre.
      - apply code_token_matches; [done|done| |done].
        by apply is_word_space_before. }
    assert (group0 line m = tok) as Hg.
    { unfold group0, m. cbn [m_start m_end]. rewrite Hline, <- Htok.
      apply slice_app. }
    assert (nonempty line = true) as Hne.
    { apply (nonempty_len line). rewrite Hline, !len_app. lia. }
    split_and!; [done|done|].
    exists (candidate lines (format_02d n) line s m). split; [|done].
    apply code_line_records; [done| |done].
    by apply classify_code.
  - intros text n j lines Hm.
    pose proof (is_code_match_len _ Hm) as Hlen.
    assert (j < length lines) as Hj.
    { apply line_at_nonempty, nonempty_len. lia. }
    destruct (cursor_reaches lines (format_02d n) j init_state) as [fuel Hf].
    { simpl. lia. } { done. } { by apply code_match_not_description. }
    exists fuel. cbn zeta. split_and!; [done|done|..].
    + by apply code_match_not_skipped.
    + destruct (is_heading_line (line_at lines j)) eqn:E; [|done].
      apply is_heading_line_len in E. lia.
    + unfold is_subheading_line. rewrite Hm. cbn [negb].
      by rewrite andb_false_r.
Qed.

Lemma C2_standalone_code_is_recorded_witness :
  let text := unlines ["0101"; "0101210000-00-00 Horses";
                       "see  01012*00**-*0-01 and so on"] in
  let lines := splitlines text in
  let line := line_at lines 2 in
  let m := {| m_start := len "see  "; m_end := len "see  " + 16 |} in
  m ∈ finditer CODE_PATTERN line
  ∧ group0 line m = "01012*00**-*0-01"
  ∧ ∃ r, r ∈ extract_hierarchy_from_text text 1
         ∧ code r = "01012*00**-*0-01".
Proof.
  intros text lines line m.
  assert (i (while_loop 2 lines (format_02d 1) init_state) = 2) as Hi
    by (by vm_compute).
  pose proof (proj1 C2_standalone_code_is_recorded text 1%Z 2
                "see  " "01012*00**-*0-01" " and so on") as H.
  cbn zeta in H. fold lines in H. rewrite Hi in H. apply H.
  - by vm_compute.
  - by vm_compute.
  - by vm_compute.
  - exists "01012*00**", "*0", "01". by vm_compute.
  - split; [exists "0"%char|exists "1"%char]; by vm_compute.
  - intros c [= <-]. by vm_compute.
  - intros c [= <-]. by vm_compute.
Defined.

(** C2 as stated fails: a title line and a line taken as the description of
    a heading hold a standalone code and give no record; and a code whose
    first or last character is '*' is not matched, since [\b] asks for a
    word character there. *)
Lemma C2_counterexample :
  extract_hierarchy_from_text (unlines ["CHAPTER 01 0101210000-00-00"]) 1 = []
  ∧ extract_hierarchy_from_text
      (unlines ["0101"; "see 0101210000-00-00"]) 1 = []
  ∧ finditer CODE_PATTERN "*101210000-00-00 Horses" = []
  ∧ extract_hierarchy_from_text (unlines ["*101210000-00-00 Horses"]) 1 = []
  ∧ finditer CODE_PATTERN "0101210000-00-0* Horses" = []
  ∧ extract_hierarchy_from_text (unlines ["0101210000-00-0* Horses"]) 1 = [].
Proof. vm_compute. split_and!; done. Qed.

(** * Further properties *)

(** ** [strip] *)

Lemma lstrip_rstrip p s :
  lstrip_by p s = s → lstrip_by p (rstrip_by p s) = rstrip_by p s.
Proof.
  destruct s as [|c s]; [done|]. simpl.
  destruct (p c) eqn:Hc.
  - intros H. exfalso.
    destruct (lstrip_by_suffix p s) as [k Hk]. rewrite Hk in H.
    assert (len (slice_from k s) ≤ len s) as Hle.
    { clear. revert s. induction k as [|k IH]; intros [|d s]; simpl;
        unfold len in *; simpl; try lia. specialize (IH s). lia. }
    rewrite H in Hle. unfold len in Hle. simpl in Hle. lia.
  - intros _. destruct (rstrip_by p s); simpl; by rewrite Hc.
Qed.

Lemma lstrip_by_idemp p s : lstrip_by p (lstrip_by p s) = lstrip_by p s.
Proof.
  induction s as [|c s IH]; simpl; [done|].
  destruct (p c) eqn:Hc; [done|]. simpl. by rewrite Hc.
Qed.

(** Stripping twice is stripping once. *)
Lemma strip_idemp s : strip (strip s) = strip s.
Proof.
  unfold strip.
  rewrite (lstrip_rstrip _ (lstrip_by isspace_char s))
    by apply lstrip_by_idemp.
  apply rstrip_by_idemp.
Qed.

(** ** The chapter title *)

Lemma first_chapter_line_spec chapter_str lines :
  let is_title line :=
    startswith line "CHAPTER " && contains line chapter_str in
  (first_chapter_line chapter_str lines = ""
   ∧ ∀ j, is_title (line_at lines j) = false)
  ∨ ∃ j, j < length lines
         ∧ first_chapter_line chapter_str lines = line_at lines j
         ∧ is_title (line_at lines j) = true
         ∧ ∀ j', j' < j → is_title (line_at lines j') = false.
Proof.
  intros is_title. induction lines as [|raw lines IH]; simpl.
  - left. split; [done|]. intros j. by rewrite line_at_out_of_range by (simpl; lia).
  - fold (is_title (strip raw)). destruct (is_title (strip raw)) eqn:Ht.
    + right. exists 0. split_and!; [lia| |done|lia].
      unfold line_at. simpl. apply strip_idemp.
    + destruct IH as [[Hnone Hall]|(j & Hj & Heq & Htj & Hfirst)].
      * left. split; [done|]. intros [|j]; [done|apply Hall].
      * right. exists (S j). split_and!; [lia|done|done|].
        intros [|j'] Hj'; [done|]. apply Hfirst. lia.
Qed.

(** X1: the title of a chapter is the first line of the text that, once
    stripped, starts with "CHAPTER " and contains the two-digit chapter
    string, stripped; when there is no such line the title is empty. *)
Theorem X1_chapter_name_is_first_title_line (text : string) (n : Z) :
  let lines := splitlines text in
  let is_title line :=
    startswith line "CHAPTER " && contains line (format_02d n) in
  (extract_chapter_name text n = ""
   ∧ ∀ j, is_title (line_at lines j) = false)
  ∨ ∃ j, j < length lines
         ∧ extract_chapter_name text n = line_at lines j
         ∧ is_title (line_at lines j) = true
         ∧ ∀ j', j' < j → is_title (line_at lines j') = false.
Proof. apply first_chapter_line_spec. Qed.

(** ** Where records come from *)

Lemma while_loop_provenance lines chapter_str fuel r :
  r ∈ records (while_loop fuel lines chapter_str init_state) →
  ∃ k m,
    let s := while_loop k lines chapter_str init_state in
    i s < length lines
    ∧ kind_at lines s = CodeLine
    ∧ m ∈ finditer CODE_PATTERN (line_at lines (i s))
    ∧ r = candidate lines chapter_str (line_at lines (i s)) s m.
Proof.
  induction fuel as [|fuel IH]; [by intros ?%elem_of_nil|].
  rewrite while_loop_S. unfold step. case_bool_decide as Hi; [|done].
  destruct (body_records lines chapter_str
              (while_loop fuel lines chapter_str init_state))
    as (new & -> & Hkind & Hnew).
  intros [Hr|Hr]%elem_of_app; [by apply IH|].
  exists fuel. destruct (Hnew r Hr) as (m & Hm & ->). exists m.
  cbn zeta. split_and!; [done| |done|done].
  destruct (kind_at lines (while_loop fuel lines chapter_str init_state));
    try done; rewrite Hkind in Hr by done; by apply elem_of_nil in Hr.
Qed.

(** X2: every record of the result comes from a match of the code pattern
    on a line on which the cursor stopped and which is not blank, not
    skipped and neither a heading nor a subheading line; its fields are the
    chapter string, the context of that iteration, the matched text and the
    description of the match. *)
Theorem X2_record_provenance (text : string) (n : Z) (r : Row) :
  r ∈ extract_hierarchy_from_text text n →
  ∃ k m,
    let lines := splitlines text in
    let s := while_loop k lines (format_02d n) init_state in
    let line := line_at lines (i s) in
    i s < length lines
    ∧ nonempty line = true ∧ is_skipped line = false
    ∧ is_heading_line line = false
    ∧ is_subheading_line (current_heading s) line = false
    ∧ m ∈ finditer CODE_PATTERN line
    ∧ r = {| chapter := format_02d n;
             heading := current_heading s;
             heading_description := current_heading_desc s;
             subheading := current_subheading s;
             subheading_description := current_subheading_desc s;
             code := group0 line m;
             description := match_description lines (i s) line m |}.
Proof.
  intros (k & m & Hi & K & Hm & ->)%while_loop_provenance.
  exists k, m. cbn zeta. apply classify_code in K as (? & ? & ? & ?).
  split_and!; done.
Qed.

Lemma X2_record_provenance_witness :
  let text := unlines ["0101"; "Live horses"; "0101210000-00-00 Horses"] in
  let r := {| chapter := "01"; heading := "0101";
              heading_description := "Live horses";
              subheading := ""; subheading_description := "";
              code := "0101210000-00-00"; description := "Horses" |} in
  ∃ k m,
    let lines := splitlines text in
    let s := while_loop k lines (format_02d 1) init_state in
    let line := line_at lines (i s) in
    i s < length lines
    ∧ nonempty line = true ∧ is_skipped line = false
    ∧ is_heading_line line = false
    ∧ is_subheading_line (current_heading s) line = false
    ∧ m ∈ finditer CODE_PATTERN line
    ∧ r = {| chapter := format_02d 1;
             heading := current_heading s;
             heading_description := current_heading_desc s;
             subheading := current_subheading s;
             subheading_description := current_subheading_desc s;
             code := group0 line m;
             description := match_description lines (i s) line m |}.
Proof.
  intros text r. apply (X2_record_provenance text 1 r).
  vm_compute. left.
Defined.

(** X3: a text in which no stripped line holds a match of the code pattern
    gives no record. *)
Theorem X3_no_match_no_record (text : string) (n : Z) :
  (∀ raw, raw ∈ splitlines text → finditer CODE_PATTERN (strip raw) = []) →
  extract_hierarchy_from_text text n = [].
Proof.
  intros Hnone.
  destruct (extract_hierarchy_from_text text n) as [|r rs] eqn:E; [done|].
  assert (r ∈ extract_hierarchy_from_text text n) as Hr by (rewrite E; left).
  apply while_loop_provenance in Hr as (k & m & Hi & _ & Hm & _).
  cbn zeta in *. apply lookup_lt_is_Some in Hi as [raw Hraw].
  rewrite (line_at_lookup _ _ _ Hraw) in Hm.
  rewrite (Hnone raw) in Hm; [by apply elem_of_nil in Hm|].
  by eapply list_elem_of_lookup_2.
Qed.

Lemma X3_no_match_no_record_witness :
  extract_hierarchy_from_text
    (unlines ["CHAPTER 01"; "0101"; "Live horses"; "010121000-00-00 short"]) 1
  = [].
Proof.
  apply X3_no_match_no_record.
  intros raw Hraw. vm_compute in Hraw.
  repeat (apply elem_of_cons in Hraw as [->|Hraw]; [by vm_compute|]).
  by apply elem_of_nil in Hraw.
Defined.

(** X4: every record of a chapter carries the two-digit string of the
    chapter number in its chapter field. *)
Theorem X4_records_carry_chapter (text : string) (n : Z) (r : Row) :
  r ∈ extract_hierarchy_from_text text n → chapter r = format_02d n.
Proof. apply extract_chapter. Qed.

Lemma X4_records_carry_chapter_witness :
  chapter {| chapter := "07"; heading := ""; heading_description := "";
             subheading := ""; subheading_description := "";
             code := "0701100000-00-00"; description := "Seed" |}
  = format_02d 7.
Proof.
  apply (X4_records_carry_chapter (unlines ["0701100000-00-00 Seed"]) 7).
  vm_compute. left.
Defined.

(** ** What the code pattern matches *)

Lemma hyphen_eq c : hyphen c = true → c = "-"%char.
Proof. destruct c as [[] [] [] [] [] [] [] []]; vm_compute; congruence. Qed.

(** A match of the code pattern covers a text of the code shape. *)
Lemma match_here_code_shape prev t n :
  match_here CODE_PATTERN prev t = Some n → code_shape (slice_to 16 t).
Proof.
  unfold CODE_PATTERN. cbn [replicate app match_here].
  destruct (at_boundary prev t); [|done].
  repeat (destruct t as [|? t]; [done|];
          match goal with
          | |- context [if ?b then _ else _] => destruct b eqn:?; [|done]
          end).
  intros _.
  repeat match goal with
         | H : hyphen _ = true |- _ => apply hyphen_eq in H; subst
         end.
  cbn [slice_to].
  eexists (String _ (String _ (String _ (String _ (String _
            (String _ (String _ (String _ (String _ (String _ "")))))))))),
          (String _ (String _ "")), (String _ (String _ "")).
  split_and!; [reflexivity|done|done|done|..]; cbn [all_chars];
    repeat match goal with
           | H : code_char ?c = true |- context [code_char ?c] => rewrite H
           end; done.
Qed.

(** A match reported by [finditer_go] starts at or after the position where
    the search resumes, and the pattern matches there. *)
Lemma finditer_go_sound pat pos skip prev s m :
  m ∈ finditer_go pat pos skip prev s →
  ∃ k n,
    m_start m = pos + k ∧ m_end m = pos + k + S n ∧ skip ≤ k
    ∧ match_here pat (last_char prev (slice_to k s)) (slice_from k s)
      = Some (S n)
    ∧ k + S n ≤ len s.
Proof.
  revert pos skip prev.
  induction s as [|c s IH]; intros pos skip prev; cbn [finditer_go];
    [by intros ?%elem_of_nil|].
  assert (∀ k0, m ∈ finditer_go pat (S pos) k0 (Some c) s →
            ∃ k n,
              m_start m = pos + k ∧ m_end m = pos + k + S n ∧ S k0 ≤ k
              ∧ match_here pat (last_char prev (slice_to k (String c s)))
                  (slice_from k (String c s)) = Some (S n)
              ∧ k + S n ≤ len (String c s)) as Htail.
  { intros k0 (k & n & H1 & H2 & H3 & H4 & H5)%IH.
    exists (S k), n. cbn [slice_to slice_from last_char].
    unfold len in *. cbn [String.length]. split_and!; [lia|lia|lia|done|lia]. }
  destruct skip as [|k0].
  - destruct (match_here pat prev (String c s)) as [[|n]|] eqn:E.
    + intros (k & n & ? & ? & ? & ? & ?)%Htail. exists k, n.
      split_and!; [done|done|lia|done|done].
    + intros [->|Hm]%elem_of_cons.
      * exists 0, n. cbn [m_start m_end slice_to slice_from last_char].
        split_and!; [lia|lia|lia|done|].
        apply match_here_len in E. lia.
      * apply Htail in Hm as (k & n' & ? & ? & ? & ? & ?). exists k, n'.
        split_and!; [done|done|lia|done|done].
    + intros (k & n & ? & ? & ? & ? & ?)%Htail. exists k, n.
      split_and!; [done|done|lia|done|done].
  - apply Htail.
Qed.

(** The matches come from left to right and do not overlap. *)
Lemma finditer_go_sorted pat pos skip prev s :
  StronglySorted (λ m1 m2, m_end m1 ≤ m_start m2)
    (finditer_go pat pos skip prev s).
Proof.
  revert pos skip prev.
  induction s as [|c s IH]; intros pos skip prev; cbn [finditer_go];
    [constructor|].
  destruct skip as [|k0]; [|apply IH].
  destruct (match_here pat prev (String c s)) as [[|n]|] eqn:E; try apply IH.
  constructor; [apply IH|].
  apply Forall_forall. intros m (k & n' & H1 & _ & H3 & _)%finditer_go_sound.
  cbn [m_end]. lia.
Qed.

Lemma finditer_match_shape line m :
  m ∈ finditer CODE_PATTERN line →
  m_end m = m_start m + 16 ∧ m_end m ≤ len line
  ∧ code_shape (group0 line m).
Proof.
  intros (k & n & H1 & H2 & _ & Hm & Hlen)%finditer_go_sound.
  pose proof (match_here_CODE_PATTERN _ _ _ Hm) as [= ->].
  split_and!; [lia|lia|].
  unfold group0, slice. rewrite H1, H2.
  replace (0 + k + 16 - (0 + k)) with 16 by lia.
  by eapply match_here_code_shape.
Qed.

(** X5: the matches of the code pattern in a line are sixteen characters
    long, lie inside the line, have the code shape, come from left to right
    and do not overlap. *)
Theorem X5_finditer_matches (line : string) :
  Forall (λ m, m_end m = m_start m + 16 ∧ m_end m ≤ len line
               ∧ code_shape (group0 line m))
    (finditer CODE_PATTERN line)
  ∧ StronglySorted (λ m1 m2, m_end m1 ≤ m_start m2)
      (finditer CODE_PATTERN line).
Proof.
  split; [|apply finditer_go_sorted].
  apply Forall_forall. apply finditer_match_shape.
Qed.

(** X6: the code of every record has the code shape: ten characters of
    digits and '*', a hyphen, two such characters, a hyphen and two such
    characters. *)
Theorem X6_codes_have_the_shape (text : string) (n : Z) (r : Row) :
  r ∈ extract_hierarchy_from_text text n → code_shape (code r).
Proof.
  intros (k & m & _ & _ & Hm & ->)%while_loop_provenance.
  cbn [code candidate]. by apply finditer_match_shape in Hm as (_ & _ & ?).
Qed.

Lemma X6_codes_have_the_shape_witness :
  code_shape "01012*00**-*0-01".
Proof.
  apply (X6_codes_have_the_shape
           (unlines ["see  01012*00**-*0-01 and so on"]) 1
           {| chapter := "01"; heading := ""; heading_description := "";
              subheading := ""; subheading_description := "";
              code := "01012*00**-*0-01"; description := "and so on" |}).
  vm_compute. left.
Defined.

(** ** The global pass *)

Lemma first_occurrences_from_sublist earlier l :
  first_occurrences_from earlier l `sublist_of` l.
Proof.
  revert earlier; induction l as [|r l IH]; intros earlier; simpl; [done|].
  case_bool_decide.
  - by apply sublist_cons.
  - by apply sublist_skip.
Qed.

(** X7: the global pass keeps every record that occurs and adds none, keeps
    the order of the records, and does nothing when it is repeated. *)
Theorem X7_global_pass_properties (all : list Row) :
  (∀ r, r ∈ global_dedupe all ↔ r ∈ all)
  ∧ global_dedupe all `sublist_of` all
  ∧ global_dedupe (global_dedupe all) = global_dedupe all.
Proof.
  rewrite !global_dedupe_first_occurrences. split_and!.
  - intros r. unfold first_occurrences. rewrite first_occurrences_from_elem.
    split; [tauto|]. intros Hr. split; [done|]. by intros ?%elem_of_nil.
  - apply first_occurrences_from_sublist.
  - apply first_occurrences_id, first_occurrences_from_NoDup.
Qed.

(** ** The tables of a run *)

(** X8: the hierarchy table is the concatenation, in the order of the
    chapter numbers 1 to 99, of the records extracted from the chapters whose
    fetch succeeded. *)
Theorem X8_hierarchy_table_by_chapter (fetch_chapter_text : Z → FetchResult) :
  deduped_records fetch_chapter_text
  = seqZ 1 99 ≫= hierarchy_of fetch_chapter_text.
Proof.
  rewrite main_global_pass_is_identity. apply main_loop_all_records.
Qed.

Lemma title_rows_ids fetch_chapter_text cs x :
  x ∈ chapter_id <$> (cs ≫= title_row_of fetch_chapter_text) →
  x ∈ format_02d <$> cs.
Proof.
  intros (row & -> & (c & Hrow & Hc)%list_elem_of_bind)%list_elem_of_fmap.
  unfold title_row_of in Hrow.
  destruct (fetch_chapter_text c); try by apply elem_of_nil in Hrow.
  apply list_elem_of_singleton in Hrow as ->. cbn [chapter_id].
  by apply list_elem_of_fmap_2.
Qed.

Lemma title_rows_NoDup fetch_chapter_text cs :
  NoDup (format_02d <$> cs) →
  NoDup (chapter_id <$> (cs ≫= title_row_of fetch_chapter_text)).
Proof.
  induction cs as [|c cs IH]; [constructor|].
  rewrite fmap_cons, NoDup_cons. intros [Hc Hcs].
  cbn [mbind list_bind]. rewrite fmap_app. apply NoDup_app. split_and!.
  - unfold title_row_of. destruct (fetch_chapter_text c); cbn [fmap list_fmap].
    + apply NoDup_singleton.
    + constructor.
    + constructor.
  - intros x Hx Hx'%title_rows_ids. apply Hc.
    unfold title_row_of in Hx.
    destruct (fetch_chapter_text c); cbn [fmap list_fmap] in Hx;
      try by apply elem_of_nil in Hx.
    by apply list_elem_of_singleton in Hx as ->.
  - by apply IH.
Qed.

(** X9: the chapters table has, in the order of the chapter numbers 1 to
    99, one row for every chapter whose fetch succeeded, holding the
    two-digit chapter string and the title extracted from the text, and no
    other row; no two rows have the same chapter string. *)
Theorem X9_chapters_table_rows (fetch_chapter_text : Z → FetchResult) :
  chapters_table fetch_chapter_text
  = seqZ 1 99 ≫= title_row_of fetch_chapter_text
  ∧ NoDup (chapter_id <$> chapters_table fetch_chapter_text)
  ∧ length (chapters_table fetch_chapter_text) ≤ 99.
Proof.
  split_and!.
  - apply chapters_table_bind.
  - rewrite chapters_table_bind. apply title_rows_NoDup.
    apply (bool_decide_unpack _). by vm_compute.
  - rewrite chapters_table_bind.
    assert (∀ cs, length (cs ≫= title_row_of fetch_chapter_text) ≤ length cs)
      as Hlen.
    { induction cs as [|c cs IH]; [done|]. cbn [mbind list_bind].
      rewrite length_app. unfold title_row_of at 1.
      destruct (fetch_chapter_text c); simpl; lia. }
    etrans; [apply Hlen|]. by rewrite length_seqZ.
Qed.

(** ** Chapter strings and addresses *)

Lemma format_02d_two_digits_table :
  forallb (λ n, bool_decide (len (format_02d n) = 2)
                && all_chars is_ascii_digit (format_02d n))
    (seqZ 0 100) = true.
Proof. by vm_compute. Qed.

(** X10: for a chapter number from 0 to 99 the chapter string has exactly
    two characters, both digits, and different numbers have different
    strings and different addresses. *)
Theorem X10_chapter_strings (a b : Z) :
  (0 ≤ a < 100)%Z → (0 ≤ b < 100)%Z →
  len (format_02d a) = 2
  ∧ all_chars is_ascii_digit (format_02d a) = true
  ∧ (format_02d a = format_02d b → a = b)
  ∧ (chapter_url a = chapter_url b → a = b).
Proof.
  intros Ha Hb.
  pose proof format_02d_two_digits_table as Htab.
  rewrite forallb_forall in Htab.
  specialize (Htab a). rewrite andb_true_iff, bool_decide_eq_true in Htab.
  destruct Htab as [Hlen Hdig].
  { apply list_elem_of_In, elem_of_seqZ. lia. }
  split_and!; [done|done|by apply format_02d_inj|].
  unfold chapter_url. intros Heq%(inj (String.app _)).
  by apply format_02d_inj.
Qed.

Lemma X10_chapter_strings_witness :
  len (format_02d 7) = 2
  ∧ all_chars is_ascii_digit (format_02d 7) = true
  ∧ (format_02d 7 = format_02d 42 → 7 = 42)%Z
  ∧ (chapter_url 7 = chapter_url 42 → 7 = 42)%Z.
Proof. apply (X10_chapter_strings 7 42); lia. Defined.

(** ** Headings and descriptions *)

Section context.
Context (lines : list string) (chapter_str : string).

Lemma context_inv_init : context_inv init_state.
Proof.
  split; simpl.
  - split; by left.
  - by left.
  - by intros r ?%elem_of_nil.
Qed.

Lemma context_inv_advance n s : context_inv s → context_inv (advance n s).
Proof. intros []. by split. Qed.

Lemma context_inv_on_match line s m :
  context_inv s → context_inv (on_match lines chapter_str line s m).
Proof.
  intros [Hh Hs Hrows]. unfold on_match. case_bool_decide; [by split|].
  split; simpl; [done|done|].
  intros r [Hr| ->%list_elem_of_singleton]%elem_of_app; [by apply Hrows|done].
Qed.

Lemma context_inv_foldl line ms s :
  context_inv s → context_inv (foldl (on_match lines chapter_str line) s ms).
Proof.
  revert s; induction ms as [|m ms IH]; intros s Hs; simpl; [done|].
  by apply IH, context_inv_on_match.
Qed.

Lemma context_inv_on_heading line s :
  is_heading_line line = true →
  context_inv s → context_inv (on_heading lines line s).
Proof.
  intros Hline [Hh Hs Hrows].
  unfold is_heading_line in Hline.
  rewrite !andb_true_iff, bool_decide_eq_true in Hline.
  destruct Hline as [[Hlen Hdig] _].
  assert (line ≠ "") as Hne by (intros ->; done).
  unfold on_heading.
  destruct (lines !! (i s + 1)) as [raw|]; simpl.
  - destruct (is_description_line (strip raw)) eqn:Hd; split; simpl;
      try done; try (by left); split; try (by left); by right.
  - split; simpl; try done; try (by left). split; [by right|by left].
Qed.

Lemma context_inv_on_subheading line s :
  is_subheading_line (current_heading s) line = true →
  context_inv s → context_inv (on_subheading lines line s).
Proof.
  intros Hline [Hh Hs Hrows].
  unfold is_subheading_line in Hline.
  rewrite !andb_true_iff, bool_decide_eq_true in Hline.
  destruct Hline as [[[Hlen Hdig] _] _].
  assert (line ≠ "") as Hne by (intros ->; done).
  unfold on_subheading.
  destruct (lines !! (i s + 1)) as [raw|]; simpl.
  - destruct (is_description_line (strip raw)) eqn:Hd; split; simpl;
      try done; try (by left); by right.
  - split; simpl; try done; by left.
Qed.

Lemma context_inv_body s :
  context_inv s → context_inv (body lines chapter_str s).
Proof.
  intros Hs. rewrite body_unfold. cbn zeta.
  destruct (kind_at lines s) eqn:K.
  - by apply context_inv_advance.
  - by apply context_inv_advance.
  - apply context_inv_on_heading; [|done].
    by apply classify_heading in K as (_ & _ & ?).
  - apply context_inv_on_subheading; [|done].
    by apply classify_subheading in K as (_ & _ & _ & ?).
  - by apply context_inv_advance, context_inv_foldl.
Qed.

Lemma context_inv_while fuel s :
  context_inv s → context_inv (while_loop fuel lines chapter_str s).
Proof.
  revert s; induction fuel as [|fuel IH]; intros s Hs; simpl; [done|].
  case_bool_decide; [|done]. by apply IH, context_inv_body.
Qed.
End context.

(** X11: in every record the heading is empty or a string of four digits;
    a heading description that is not empty comes with a heading that is
    not empty, and a subheading description that is not empty with a
    subheading that is not empty; and such a description is a line that is
    not empty, not numeric and does not start with a code. *)
Theorem X11_headings_and_descriptions (text : string) (n : Z) (r : Row) :
  r ∈ extract_hierarchy_from_text text n →
  (heading r = "" ∨ (len (heading r) = 4 ∧ isdigit (heading r) = true))
  ∧ (heading_description r = ""
     ∨ (heading r ≠ ""
        ∧ nonempty (heading_description r) = true
        ∧ isdigit (heading_description r) = false
        ∧ is_code_match (heading_description r) = false))
  ∧ (subheading_description r = ""
     ∨ (subheading r ≠ ""
        ∧ nonempty (subheading_description r) = true
        ∧ isdigit (subheading_description r) = false
        ∧ is_code_match (subheading_description r) = false)).
Proof.
  intros Hr. unfold extract_hierarchy_from_text in Hr.
  pose proof (context_inv_while (splitlines text) (format_02d n)
                (length (splitlines text)) init_state context_inv_init)
    as [_ _ Hrows].
  destruct (Hrows r Hr) as [[Hh Hhd] Hsd].
  assert (∀ d, is_description_line d = true →
            nonempty d = true ∧ isdigit d = false ∧ is_code_match d = false)
    as Hdesc.
  { intros d. unfold is_description_line.
    rewrite !andb_true_iff, !negb_true_iff. tauto. }
  split_and!; [done| |].
  - destruct Hhd as [?|[? ?%Hdesc]]; [by left|by right].
  - destruct Hsd as [?|[? ?%Hdesc]]; [by left|by right].
Qed.

Lemma X11_headings_and_descriptions_witness :
  let r := {| chapter := "01"; heading := "0101";
              heading_description := "Live horses";
              subheading := "01012"; subheading_description := "Horses";
              code := "0101210000-00-00"; description := "Pure-bred" |} in
  (heading r = "" ∨ (len (heading r) = 4 ∧ isdigit (heading r) = true))
  ∧ (heading_description r = ""
     ∨ (heading r ≠ ""
        ∧ nonempty (heading_description r) = true
        ∧ isdigit (heading_description r) = false
        ∧ is_code_match (heading_description r) = false))
  ∧ (subheading_description r = ""
     ∨ (subheading r ≠ ""
        ∧ nonempty (subheading_description r) = true
        ∧ isdigit (subheading_description r) = false
        ∧ is_code_match (subheading_description r) = false)).
Proof.
  intros r.
  apply (X11_headings_and_descriptions
           (unlines ["0101"; "Live horses"; "01012"; "Horses";
                     "0101210000-00-00 Pure-bred"]) 1 r).
  vm_compute. left.
Defined.

(** ** White space around lines *)

Section stripped_lines.
Context (lines1 lines2 : list string).
Context (Hstrip : strip <$> lines1 = strip <$> lines2).

Lemma stripped_length : length lines1 = length lines2.
Proof using Hstrip.
  by rewrite <- (length_fmap strip lines1), Hstrip, length_fmap.
Qed.

Lemma stripped_lookup j : strip <$> lines1 !! j = strip <$> lines2 !! j.
Proof using Hstrip. by rewrite <- !list_lookup_fmap, Hstrip. Qed.

Lemma stripped_line_at j : line_at lines1 j = line_at lines2 j.
Proof using Hstrip.
  unfold line_at. pose proof (stripped_lookup j) as H.
  destruct (lines1 !! j), (lines2 !! j); simpl in *; congruence.
Qed.

Lemma stripped_on_heading line s :
  on_heading lines1 line s = on_heading lines2 line s.
Proof using Hstrip.
  unfold on_heading. pose proof (stripped_lookup (i s + 1)) as H.
  destruct (lines1 !! (i s + 1)), (lines2 !! (i s + 1)); simpl in *;
    try done. by injection H as ->.
Qed.

Lemma stripped_on_subheading line s :
  on_subheading lines1 line s = on_subheading lines2 line s.
Proof using Hstrip.
  unfold on_subheading. pose proof (stripped_lookup (i s + 1)) as H.
  destruct (lines1 !! (i s + 1)), (lines2 !! (i s + 1)); simpl in *;
    try done. by injection H as ->.
Qed.

Lemma stripped_match_description idx line m :
  match_description lines1 idx line m = match_description lines2 idx line m.
Proof using Hstrip.
  unfold match_description. pose proof (stripped_lookup (idx + 1)) as H.
  destruct (lines1 !! (idx + 1)), (lines2 !! (idx + 1)); simpl in *;
    try done. by injection H as ->.
Qed.

Lemma stripped_on_match chapter_str line s m :
  on_match lines1 chapter_str line s m = on_match lines2 chapter_str line s m.
Proof using Hstrip.
  unfold on_match, candidate. by rewrite stripped_match_description.
Qed.

Lemma stripped_foldl chapter_str line ms s :
  foldl (on_match lines1 chapter_str line) s ms
  = foldl (on_match lines2 chapter_str line) s ms.
Proof using Hstrip.
  revert s; induction ms as [|m ms IH]; intros s; simpl; [done|].
  by rewrite stripped_on_match, IH.
Qed.

Lemma stripped_body chapter_str s :
  body lines1 chapter_str s = body lines2 chapter_str s.
Proof using Hstrip.
  unfold body. rewrite stripped_line_at.
  by rewrite stripped_on_heading, stripped_on_subheading, stripped_foldl.
Qed.

Lemma stripped_while_loop fuel chapter_str s :
  while_loop fuel lines1 chapter_str s = while_loop fuel lines2 chapter_str s.
Proof using Hstrip.
  revert s; induction fuel as [|fuel IH]; intros s; simpl; [done|].
  by rewrite stripped_length, stripped_body, IH.
Qed.
End stripped_lines.

Lemma stripped_first_chapter_line chapter_str lines1 lines2 :
  strip <$> lines1 = strip <$> lines2 →
  first_chapter_line chapter_str lines1 = first_chapter_line chapter_str lines2.
Proof.
  revert lines2; induction lines1 as [|a lines1 IH]; intros [|b lines2];
    simpl; try done.
  intros [= -> H]. by rewrite (IH lines2 H).
Qed.

(** X12: white space at the ends of the lines does not count: two texts
    whose lines are equal once stripped give the same records and the same
    chapter title. *)
Theorem X12_line_ends_do_not_count (text1 text2 : string) (n : Z) :
  strip <$> splitlines text1 = strip <$> splitlines text2 →
  extract_hierarchy_from_text text1 n = extract_hierarchy_from_text text2 n
  ∧ extract_chapter_name text1 n = extract_chapter_name text2 n.
Proof.
  intros H. split.
  - unfold extract_hierarchy_from_text.
    by rewrite (stripped_length _ _ H), (stripped_while_loop _ _ H).
  - unfold extract_chapter_name. by apply stripped_first_chapter_line.
Qed.

Lemma X12_line_ends_do_not_count_witness :
  let text1 := unlines ["  CHAPTER 01  "; " 0101"; "Live horses   ";
                        "   0101210000-00-00 Horses "] in
  let text2 := unlines ["CHAPTER 01"; "0101"; "Live horses";
                        "0101210000-00-00 Horses"] in
  extract_hierarchy_from_text text1 1 = extract_hierarchy_from_text text2 1
  ∧ extract_chapter_name text1 1 = extract_chapter_name text2 1.
Proof.
  intros text1 text2. apply (X12_line_ends_do_not_count text1 text2 1).
  by vm_compute.
Defined.

(** ** Lines too short for a code *)

Lemma finditer_short line : len line < 16 → finditer CODE_PATTERN line = [].
Proof.
  intros Hlen. destruct (finditer CODE_PATTERN line) as [|m ms] eqn:E; [done|].
  assert (m ∈ finditer CODE_PATTERN line) as Hm by (rewrite E; left).
  apply finditer_match_shape in Hm as (? & ? & _). lia.
Qed.

(** X13: a line of five digits that does not start with the current heading
    is not taken as a subheading: the iteration only moves the cursor by
    one line; the context, and with it the current subheading, and the
    records stay as they are. *)
Theorem X13_stray_subheading_is_ignored
    (lines : list string) (chapter_str : string) (s : LoopState) :
  len (line_at lines (i s)) = 5 →
  isdigit (line_at lines (i s)) = true →
  startswith (line_at lines (i s)) (current_heading s) = false →
  body lines chapter_str s = advance 1 s.
Proof.
  intros Hlen Hdig Hpre.
  assert (kind_at lines s = CodeLine) as K.
  { apply classify_code. split_and!.
    - apply nonempty_len. lia.
    - destruct (is_skipped _) eqn:E; [|done]. apply is_skipped_len in E. lia.
    - destruct (is_heading_line _) eqn:E; [|done].
      apply is_heading_line_len in E. lia.
    - unfold is_subheading_line. rewrite Hpre.
      by rewrite andb_false_r. }
  rewrite body_unfold, K. cbn zeta.
  rewrite finditer_short by lia. done.
Qed.

Lemma X13_stray_subheading_is_ignored_witness :
  let lines := ["0101"; "01012"; "02011"; "0101210000-00-00 Horses"] in
  let s := while_loop 2 lines "01" init_state in
  body lines "01" s = advance 1 s.
Proof.
  intros lines s. apply (X13_stray_subheading_is_ignored lines "01" s).
  - by vm_compute.
  - by vm_compute.
  - by vm_compute.
Defined.

(** ** The rows of one chapter *)

Lemma filter_bind {A B} (P : B → Prop) `{∀ x, Decision (P x)}
    (f : A → list B) (l : list A) :
  filter P (l ≫= f) = l ≫= (λ x, filter P (f x)).
Proof.
  induction l as [|x l IH]; [done|].
  cbn [mbind list_bind]. by rewrite filter_app, IH.
Qed.

Lemma filter_all {A} (P : A → Prop) `{∀ x, Decision (P x)} (l : list A) :
  (∀ x, x ∈ l → P x) → filter P l = l.
Proof.
  induction l as [|x l IH]; intros Hl; [done|].
  rewrite filter_cons_True by (apply Hl; left).
  f_equal. apply IH. intros y Hy. apply Hl. by right.
Qed.

Lemma filter_none {A} (P : A → Prop) `{∀ x, Decision (P x)} (l : list A) :
  (∀ x, x ∈ l → ¬ P x) → filter P l = [].
Proof.
  induction l as [|x l IH]; intros Hl; [done|].
  rewrite filter_cons_False by (apply Hl; left).
  apply IH. intros y Hy. apply Hl. by right.
Qed.

Lemma bind_only {A B} `{EqDecision A} (c : A) (f g : A → list B) (l : list A) :
  NoDup l → c ∈ l →
  (∀ x, x ∈ l → g x = if decide (x = c) then f c else []) →
  l ≫= g = f c.
Proof.
  induction l as [|x l IH]; intros Hnd Hc Hg; [by apply elem_of_nil in Hc|].
  apply NoDup_cons in Hnd as [Hx Hnd]. cbn [mbind list_bind].
  rewrite (Hg x) by left.
  assert (∀ y, y ∈ l → g y = if decide (y = c) then f c else []) as Hg'.
  { intros y Hy. apply Hg. by right. }
  destruct (decide (x = c)) as [->|Hne].
  - assert (l ≫= g = []) as ->; [|by rewrite app_nil_r].
    clear IH Hc Hg. induction l as [|y l IH]; [done|].
    cbn [mbind list_bind]. rewrite (Hg' y) by left.
    rewrite decide_False by (intros ->; apply Hx; left).
    apply IH.
    + intros Hc. apply Hx. by right.
    + by apply NoDup_cons in Hnd as [_ ?].
    + intros z Hz. apply Hg'. by right.
  - apply elem_of_cons in Hc as [->|Hc]; [done|]. by apply IH.
Qed.

(** X14: the rows of the hierarchy table that carry the string of a chapter
    from 1 to 99 are exactly the records extracted from the text of that
    chapter, in their order, and there are none when its fetch failed. *)
Theorem X14_rows_of_a_chapter
    (fetch_chapter_text : Z → FetchResult) (c : Z) :
  (1 ≤ c ≤ 99)%Z →
  filter (λ r, chapter r = format_02d c) (deduped_records fetch_chapter_text)
  = match fetch_chapter_text c with
    | Fetched text => extract_hierarchy_from_text text c
    | _ => []
    end.
Proof.
  intros Hc. rewrite main_global_pass_is_identity, main_loop_all_records.
  rewrite filter_bind.
  apply (bind_only c (hierarchy_of fetch_chapter_text)).
  - apply NoDup_seqZ.
  - apply elem_of_seqZ. lia.
  - intros x Hx%elem_of_seqZ. destruct (decide (x = c)) as [->|Hne].
    + apply filter_all. intros r. apply hierarchy_of_chapter.
    + apply filter_none.
      intros r Hr%hierarchy_of_chapter Heq. rewrite Hr in Heq.
      apply format_02d_inj in Heq; [done|lia..].
Qed.

Lemma X14_rows_of_a_chapter_witness :
  filter (λ r, chapter r = format_02d 2) (deduped_records sample_fetch)
  = match sample_fetch 2 with
    | Fetched text => extract_hierarchy_from_text text 2
    | _ => []
    end.
Proof. apply (X14_rows_of_a_chapter sample_fetch 2). lia. Defined.

(** ** The console *)

Lemma foldl_main_body_stdout fetch_chapter_text st cs :
  stdout (foldl (main_body fetch_chapter_text) st cs)
  = stdout st
    ++ (cs ≫= λ c, [fetching_line c; outcome_line fetch_chapter_text c]).
Proof.
  revert st; induction cs as [|c cs IH]; intros st; simpl.
  - by rewrite app_nil_r.
  - rewrite IH. unfold main_body, outcome_line, fetching_line.
    destruct (fetch_chapter_text c); cbn [stdout];
      by rewrite <- !app_assoc.
Qed.

(** X15: a run prints two lines for every chapter from 1 to 99, in the
    order of the chapters: the announcement of the fetch, and then the
    error of the fetch or the number of records found; 198 lines in all. *)
Theorem X15_console_lines (fetch_chapter_text : Z → FetchResult) :
  stdout (main_loop fetch_chapter_text)
  = (seqZ 1 99 ≫= λ c, [fetching_line c; outcome_line fetch_chapter_text c])
  ∧ length (stdout (main_loop fetch_chapter_text)) = 198.
Proof.
  assert (stdout (main_loop fetch_chapter_text)
          = (seqZ 1 99 ≫= λ c,
               [fetching_line c; outcome_line fetch_chapter_text c])) as Heq.
  { unfold main_loop. by rewrite foldl_main_body_stdout. }
  split; [done|]. rewrite Heq.
  assert (∀ cs : list Z,
            length (cs ≫= λ c,
                      [fetching_line c; outcome_line fetch_chapter_text c])
            = 2 * length cs) as Hlen.
  { induction cs as [|c cs IH]; [done|]. cbn [mbind list_bind].
    rewrite length_app, IH. simpl. lia. }
  rewrite Hlen, length_seqZ. done.
Qed.

(** ** Where the fields come from *)

Lemma slice_to_all n s : len s ≤ n → slice_to n s = s.
Proof.
  revert s; induction n as [|n IH]; intros [|c s]; unfold len; simpl;
    try done; [lia|]. intros H. f_equal. apply IH. unfold len. lia.
Qed.

Lemma slice_from_len n s : len (slice_from n s) ≤ len s.
Proof.
  revert s; induction n as [|n IH]; intros [|c s]; simpl; try done.
  specialize (IH s). unfold len in *. simpl. lia.
Qed.

Lemma slice_from_slice_from a b s :
  slice_from b (slice_from a s) = slice_from (a + b) s.
Proof.
  revert s; induction a as [|a IH]; intros s; simpl; [done|].
  destruct s as [|c s]; [by destruct b|]. apply IH.
Qed.

(** A rest of a string is a run of its characters. *)
Lemma slice_from_as_slice a s : slice_from a s = slice a (a + len s) s.
Proof.
  unfold slice. replace (a + len s - a) with (len s) by lia.
  symmetry. apply slice_to_all, slice_from_len.
Qed.

Lemma slice_whole s : s = slice 0 (len s) s.
Proof. exact (slice_from_as_slice 0 s). Qed.

Section pieces.
Context (lines : list string) (chapter_str : string).

Lemma piece_of_line j :
  nonempty (line_at lines j) = true → piece_of lines (line_at lines j).
Proof.
  intros Hne%line_at_nonempty. right. exists j, 0, (len (line_at lines j)).
  split; [done|]. apply slice_whole.
Qed.

Lemma piece_of_next_line j raw :
  lines !! j = Some raw → piece_of lines (strip raw).
Proof.
  intros Hraw. right. exists j, 0, (len (strip raw)).
  split; [by eapply lookup_lt_Some|].
  rewrite (line_at_lookup _ _ _ Hraw). apply slice_whole.
Qed.

(** The description of a match is a piece of its line or of the next. *)
Lemma piece_of_match_description idx m :
  idx < length lines →
  piece_of lines (match_description lines idx (line_at lines idx) m).
Proof.
  intros Hidx. unfold match_description.
  set (desc := lstrip (strip (slice_from (m_end m) (line_at lines idx))) " -:").
  assert (piece_of lines desc) as Hdesc.
  { right. exists idx. unfold desc, line_at. rewrite strip_slice_from.
    unfold lstrip.
    destruct (lstrip_by_suffix isspace_char
                (slice_from (m_end m) (strip (default "" (lines !! idx)))))
      as [k1 ->].
    destruct (lstrip_by_suffix (λ c, char_in c " -:")
                (slice_from k1
                   (slice_from (m_end m) (strip (default "" (lines !! idx))))))
      as [k2 ->].
    rewrite !slice_from_slice_from.
    eexists _, _. split; [done|]. apply slice_from_as_slice. }
  destruct (nonempty desc); [done|].
  destruct (lines !! (idx + 1)) as [raw|] eqn:E; [|done].
  destruct (_ && _); [|done]. by eapply piece_of_next_line.
Qed.

Lemma pieces_inv_init : pieces_inv lines init_state.
Proof. split; simpl; try (by left). by intros r ?%elem_of_nil. Qed.

Lemma pieces_inv_advance n s : pieces_inv lines s → pieces_inv lines (advance n s).
Proof. intros []. by split. Qed.

Lemma pieces_inv_on_match s m :
  i s < length lines →
  pieces_inv lines s →
  pieces_inv lines (on_match lines chapter_str (line_at lines (i s)) s m).
Proof.
  intros Hi [H1 H2 H3 H4 Hrows]. unfold on_match.
  case_bool_decide; [by split|]. split; simpl; try done.
  intros r [Hr| ->%list_elem_of_singleton]%elem_of_app; [by apply Hrows|].
  cbn [candidate heading heading_description subheading
         subheading_description code description].
  split_and!; try done.
  - right. exists (i s), (m_start m), (m_end m). done.
  - by apply piece_of_match_description.
Qed.

Lemma pieces_inv_foldl idx ms s :
  i s = idx → idx < length lines →
  pieces_inv lines s →
  pieces_inv lines (foldl (on_match lines chapter_str (line_at lines idx)) s ms).
Proof.
  revert s; induction ms as [|m ms IH]; intros s Hidx Hlt Hs; simpl; [done|].
  apply IH; [|done|].
  - rewrite <- Hidx. apply on_match_frame.
  - rewrite <- Hidx. apply pieces_inv_on_match; [lia|done].
Qed.

Lemma pieces_inv_on_heading s :
  nonempty (line_at lines (i s)) = true →
  pieces_inv lines s →
  pieces_inv lines (on_heading lines (line_at lines (i s)) s).
Proof.
  intros Hne [H1 H2 H3 H4 Hrows]. pose proof (piece_of_line _ Hne) as Hline.
  unfold on_heading.
  destruct (lines !! (i s + 1)) as [raw|] eqn:E; simpl.
  - pose proof (piece_of_next_line _ _ E) as Hnext.
    destruct (is_description_line (strip raw)); split; simpl;
      try done; by left.
  - split; simpl; try done; by left.
Qed.

Lemma pieces_inv_on_subheading s :
  nonempty (line_at lines (i s)) = true →
  pieces_inv lines s →
  pieces_inv lines (on_subheading lines (line_at lines (i s)) s).
Proof.
  intros Hne [H1 H2 H3 H4 Hrows]. pose proof (piece_of_line _ Hne) as Hline.
  unfold on_subheading.
  destruct (lines !! (i s + 1)) as [raw|] eqn:E; simpl.
  - pose proof (piece_of_next_line _ _ E) as Hnext.
    destruct (is_description_line (strip raw)); split; simpl;
      try done; by left.
  - split; simpl; try done; by left.
Qed.

Lemma pieces_inv_body s :
  pieces_inv lines s → pieces_inv lines (body lines chapter_str s).
Proof.
  intros Hs. rewrite body_unfold. cbn zeta.
  destruct (kind_at lines s) eqn:K.
  - by apply pieces_inv_advance.
  - by apply pieces_inv_advance.
  - apply pieces_inv_on_heading; [|done].
    by apply classify_heading in K as (? & _).
  - apply pieces_inv_on_subheading; [|done].
    by apply classify_subheading in K as (? & _).
  - apply pieces_inv_advance, pieces_inv_foldl; [done| |done].
    apply line_at_nonempty. by apply classify_code in K as (? & _).
Qed.

Lemma pieces_inv_while fuel s :
  pieces_inv lines s → pieces_inv lines (while_loop fuel lines chapter_str s).
Proof.
  revert s; induction fuel as [|fuel IH]; intros s Hs; simpl; [done|].
  case_bool_decide; [|done]. by apply IH, pieces_inv_body.
Qed.
End pieces.

(** X16: nothing in a record is made up: the heading, the subheading, their
    descriptions, the code and the description of every record are empty or
    a run of consecutive characters of one stripped line of the text. *)
Theorem X16_fields_are_pieces_of_the_text (text : string) (n : Z) (r : Row) :
  r ∈ extract_hierarchy_from_text text n →
  Forall (λ x, x = ""
               ∨ ∃ j a b, j < length (splitlines text)
                          ∧ x = slice a b (line_at (splitlines text) j))
    [heading r; heading_description r; subheading r;
     subheading_description r; code r; description r].
Proof.
  intros Hr. unfold extract_hierarchy_from_text in Hr.
  pose proof (pieces_inv_while (splitlines text) (format_02d n)
                (length (splitlines text)) init_state
                (pieces_inv_init _)) as [_ _ _ _ Hrows].
  destruct (Hrows r Hr) as (? & ? & ? & ? & ? & ?).
  repeat (apply List.Forall_cons; [done|]). apply List.Forall_nil.
Qed.

Lemma X16_fields_are_pieces_of_the_text_witness :
  let text := unlines ["0101"; "Live horses"; "0101210000-00-00 - Horses"] in
  let r := {| chapter := "01"; heading := "0101";
              heading_description := "Live horses";
              subheading := ""; subheading_description := "";
              code := "0101210000-00-00"; description := "Horses" |} in
  Forall (λ x, x = ""
               ∨ ∃ j a b, j < length (splitlines text)
                          ∧ x = slice a b (line_at (splitlines text) j))
    [heading r; heading_description r; subheading r;
     subheading_description r; code r; description r].
Proof.
  intros text r. apply (X16_fields_are_pieces_of_the_text text 1 r).
  vm_compute. left.
Defined.

(** ** Lines *)

Lemma all_chars_slice_to p n s :
  all_chars p s = true → all_chars p (slice_to n s) = true.
Proof.
  revert s; induction n as [|n IH]; intros [|c s]; simpl; try done.
  rewrite !andb_true_iff. intros [? ?]. split; [done|by apply IH].
Qed.

Lemma all_chars_slice_from p n s :
  all_chars p s = true → all_chars p (slice_from n s) = true.
Proof.
  revert s; induction n as [|n IH]; intros [|c s]; simpl; try done.
  rewrite !andb_true_iff. intros [? ?]. by apply IH.
Qed.

Lemma all_chars_lstrip_by p q s :
  all_chars p s = true → all_chars p (lstrip_by q s) = true.
Proof.
  destruct (lstrip_by_suffix q s) as [k ->]. apply all_chars_slice_from.
Qed.

Lemma all_chars_rstrip_by p q s :
  all_chars p s = true → all_chars p (rstrip_by q s) = true.
Proof.
  induction s as [|c s IH]; simpl; [done|].
  rewrite andb_true_iff. intros [Hc Hs]. specialize (IH Hs).
  destruct (rstrip_by q s).
  - destruct (q c); simpl; [done|]. by rewrite Hc.
  - simpl in *. by rewrite Hc, IH.
Qed.

Lemma one_line_strip s : one_line s → one_line (strip s).
Proof.
  unfold one_line, strip. intros H.
  by apply all_chars_rstrip_by, all_chars_lstrip_by.
Qed.

Lemma one_line_snoc cur c :
  one_line cur → is_linebreak c = false → one_line (cur +:+ String c "").
Proof.
  unfold one_line. intros Hcur Hc. rewrite all_chars_app, Hcur. simpl.
  by rewrite Hc.
Qed.

(** No line of [splitlines] holds a line boundary. *)
Lemma splitlines_go_one_line n s cur :
  len s ≤ n → one_line cur → Forall one_line (splitlines_go cur s).
Proof.
  revert s cur; induction n as [|n IH]; intros [|c s] cur Hlen Hcur; simpl.
  - destruct (nonempty cur); by repeat constructor.
  - unfold len in Hlen. simpl in Hlen. lia.
  - destruct (nonempty cur); by repeat constructor.
  - assert (len s ≤ n) as Hs by (unfold len in *; simpl in Hlen; lia).
    destruct (is_linebreak c) eqn:Hc.
    + destruct s as [|d s]; [by repeat constructor|].
      destruct (_ && _).
      * constructor; [done|]. apply IH; [|done].
        unfold len in *. simpl in *. lia.
      * constructor; [done|]. by apply IH.
    + apply IH; [done|]. by apply one_line_snoc.
Qed.

Lemma splitlines_one_line text : Forall one_line (splitlines text).
Proof. by apply (splitlines_go_one_line (len text)). Qed.

Lemma line_at_one_line text j : one_line (line_at (splitlines text) j).
Proof.
  unfold line_at. destruct (splitlines text !! j) as [raw|] eqn:E; [|done].
  apply one_line_strip. simpl.
  pose proof (splitlines_one_line text) as H. rewrite Forall_forall in H.
  by eapply H, list_elem_of_lookup_2.
Qed.

(** X17: the lines of a text hold no line boundary, and so no heading,
    subheading, description or code of a record does: every field is on one
    line. *)
Theorem X17_fields_are_on_one_line (text : string) (n : Z) (r : Row) :
  Forall (λ l, all_chars (λ c, negb (is_linebreak c)) l = true)
    (splitlines text)
  ∧ (r ∈ extract_hierarchy_from_text text n →
     Forall (λ x, all_chars (λ c, negb (is_linebreak c)) x = true)
       [heading r; heading_description r; subheading r;
        subheading_description r; code r; description r]).
Proof.
  split; [apply splitlines_one_line|].
  intros Hr. unfold extract_hierarchy_from_text in Hr.
  pose proof (pieces_inv_while (splitlines text) (format_02d n)
                (length (splitlines text)) init_state
                (pieces_inv_init _)) as [_ _ _ _ Hrows].
  assert (∀ x, piece_of (splitlines text) x → one_line x) as Hpiece.
  { intros x [->|(j & a & b & _ & ->)]; [done|].
    unfold slice. apply all_chars_slice_to, all_chars_slice_from.
    apply line_at_one_line. }
  destruct (Hrows r Hr) as (? & ? & ? & ? & ? & ?).
  repeat (apply List.Forall_cons; [by apply Hpiece|]). apply List.Forall_nil.
Qed.

Lemma X17_fields_are_on_one_line_witness :
  let text := unlines ["0101"; "Live horses"; "0101210000-00-00 - Horses"] in
  let r := {| chapter := "01"; heading := "0101";
              heading_description := "Live horses";
              subheading := ""; subheading_description := "";
              code := "0101210000-00-00"; description := "Horses" |} in
  Forall (λ x, all_chars (λ c, negb (is_linebreak c)) x = true)
    [heading r; heading_description r; subheading r;
     subheading_description r; code r; description r].
Proof.
  intros text r. apply (proj2 (X17_fields_are_on_one_line text 1 r)).
  vm_compute. left.
Defined.

(** * The description of a match, over all code points *)

Section unicode.
Import Unicode.
Context `{UnicodeData}.

Lemma u_key_of_inj r1 r2 : key_of r1 = key_of r2 → r1 = r2.
Proof. destruct r1, r2. intros [=]. by simplify_eq. Qed.

(** ** Stripping *)

Lemma u_lstrip_by_spec p s :
  ∃ pre, s = pre ++ lstrip_by p s ∧ forallb p pre = true
         ∧ ∀ c, head (lstrip_by p s) = Some c → p c = false.
Proof.
  induction s as [|c s IH]; simpl.
  - exists []. split_and!; [done|done|]. by intros c [=].
  - destruct (p c) eqn:Hc.
    + destruct IH as (pre & Heq & Hall & Hfirst).
      exists (c :: pre). simpl. rewrite Hc, Hall.
      split_and!; [by f_equal|done|done].
    + exists []. split_and!; [done|done|]. by intros d [= <-].
Qed.

Lemma u_lstrip_by_suffix p s : ∃ n, lstrip_by p s = drop n s.
Proof.
  induction s as [|c s [n IH]]; simpl.
  - by exists 0.
  - destruct (p c); [by exists (S n)|by exists 0].
Qed.

Lemma u_rstrip_by_idemp p s : rstrip_by p (rstrip_by p s) = rstrip_by p s.
Proof.
  induction s as [|c s IH]; simpl; [done|].
  destruct (rstrip_by p s) as [|d r] eqn:E.
  - destruct (p c) eqn:Hc; simpl; [done|]. by rewrite Hc.
  - simpl. simpl in IH. by rewrite IH.
Qed.

Lemma u_rstripped_tail p c s :
  rstrip_by p (c :: s) = c :: s → rstrip_by p s = s.
Proof.
  simpl. destruct (rstrip_by p s) as [|d r] eqn:E.
  - destruct (p c); [done|]. by intros [= <-].
  - by intros [= <-].
Qed.

Lemma u_rstripped_drop p n s :
  rstrip_by p s = s → rstrip_by p (drop n s) = drop n s.
Proof.
  revert s; induction n as [|n IH]; intros [|c s] Hs; simpl; try done.
  by eapply IH, u_rstripped_tail.
Qed.

(** On the rest of a stripped line, [strip] only removes leading white
    space. *)
Lemma u_strip_rest n s :
  strip (slice_from n (strip s))
  = lstrip_by isspace_char (slice_from n (strip s)).
Proof.
  unfold strip at 1, slice_from.
  destruct (u_lstrip_by_suffix isspace_char (drop n (strip s))) as [k ->].
  apply u_rstripped_drop, u_rstripped_drop, u_rstrip_by_idemp.
Qed.

Lemma u_forallb_impl (p q : N → bool) s :
  (∀ c, p c = true → q c = true) → forallb p s = true → forallb q s = true.
Proof.
  intros Hpq. induction s as [|c s IH]; simpl; [done|].
  rewrite !andb_true_iff. intros [? ?]. split; [by apply Hpq|by apply IH].
Qed.

(** The description taken from the rest of a stripped line: the rest without
    a leading run of white space and separators, and not starting with a
    separator. *)
Lemma u_rest_description_spec n s :
  let rest := slice_from n (strip s) in
  let desc := lstrip (strip rest) SEPARATORS in
  ∃ pre, rest = pre ++ desc
         ∧ forallb is_separator pre = true
         ∧ ∀ c, head desc = Some c → c ∉ SEPARATORS.
Proof.
  intros rest desc. unfold desc, rest. rewrite u_strip_rest.
  fold rest. unfold lstrip.
  destruct (u_lstrip_by_spec isspace_char rest) as (pre1 & H1 & Hp1 & _).
  destruct (u_lstrip_by_spec (λ c, bool_decide (c ∈ SEPARATORS))
              (lstrip_by isspace_char rest))
    as (pre2 & H2 & Hp2 & Hfirst).
  exists (pre1 ++ pre2). split_and!.
  - rewrite <- app_assoc, <- H2. done.
  - rewrite forallb_app, andb_true_iff. split.
    + eapply u_forallb_impl; [|done]. unfold is_separator. by intros c ->.
    + eapply u_forallb_impl; [|done]. unfold is_separator.
      intros c ->. by rewrite orb_true_r.
  - intros c Hc. apply Hfirst in Hc. by apply bool_decide_eq_false in Hc.
Qed.

(** ** The loop *)

Section u_loop.
Context (lines : list str) (chapter_str : str).

Lemma u_candidate_ext line s s' m :
  frame s = frame s' →
  candidate lines chapter_str line s m = candidate lines chapter_str line s' m.
Proof. unfold candidate, frame. intros [= -> -> -> -> ->]. done. Qed.

Lemma u_on_match_frame line s m :
  frame (on_match lines chapter_str line s m) = frame s.
Proof. unfold on_match. by case_bool_decide. Qed.

Lemma u_foldl_frame line ms s :
  frame (foldl (on_match lines chapter_str line) s ms) = frame s.
Proof.
  revert s; induction ms as [|m ms IH]; intros s; simpl; [done|].
  rewrite IH. apply u_on_match_frame.
Qed.

Lemma u_on_match_prefix line s m :
  records s `prefix_of` records (on_match lines chapter_str line s m).
Proof.
  unfold on_match. case_bool_decide; [done|]. simpl. by apply prefix_app_r.
Qed.

Lemma u_foldl_prefix line ms s :
  records s `prefix_of` records (foldl (on_match lines chapter_str line) s ms).
Proof.
  revert s; induction ms as [|m ms IH]; intros s; simpl; [done|].
  etrans; [apply u_on_match_prefix|apply IH].
Qed.

Lemma u_seen_on_match line s m :
  seen_recorded s → seen_recorded (on_match lines chapter_str line s m).
Proof.
  intros Hs. unfold on_match. case_bool_decide; [done|].
  unfold seen_recorded. simpl. intros k.
  rewrite fmap_app, elem_of_app, elem_of_union, elem_of_singleton.
  intros [->|Hk]; [right; simpl; by left|left; by apply Hs].
Qed.

Lemma u_seen_foldl line ms s :
  seen_recorded s →
  seen_recorded (foldl (on_match lines chapter_str line) s ms).
Proof.
  revert s; induction ms as [|m ms IH]; intros s Hs; simpl; [done|].
  by apply IH, u_seen_on_match.
Qed.

(** Every match of a line has its candidate in [records] afterwards. *)
Lemma u_foldl_present line ms s m :
  seen_recorded s → m ∈ ms →
  candidate lines chapter_str line s m
    ∈ records (foldl (on_match lines chapter_str line) s ms).
Proof.
  revert s; induction ms as [|m0 ms IH]; intros s Hseen Hm;
    [by apply elem_of_nil in Hm|].
  simpl. apply elem_of_cons in Hm as [->|Hm].
  - eapply elem_of_prefix; [|apply u_foldl_prefix].
    unfold on_match. case_bool_decide as Hk.
    + apply Hseen, list_elem_of_fmap in Hk as (r & Hkey & Hr).
      by apply u_key_of_inj in Hkey as ->.
    + simpl. apply elem_of_app. right. by left.
  - rewrite (u_candidate_ext line s (on_match lines chapter_str line s m0) m)
      by (by rewrite u_on_match_frame).
    apply IH; [by apply u_seen_on_match|done].
Qed.

Lemma u_on_heading_facts line s :
  i s < i (on_heading lines line s)
  ∧ records (on_heading lines line s) = records s
  ∧ seen (on_heading lines line s) = seen s.
Proof.
  unfold on_heading. repeat case_match; simpl; split_and!; done || lia.
Qed.

Lemma u_on_subheading_facts line s :
  i s < i (on_subheading lines line s)
  ∧ records (on_subheading lines line s) = records s
  ∧ seen (on_subheading lines line s) = seen s.
Proof.
  unfold on_subheading. repeat case_match; simpl; split_and!; done || lia.
Qed.

(** An iteration moves the cursor, only appends to [records], and keeps
    the keys of [seen] among those of [records]. *)
Lemma u_body_facts s :
  i s < i (body lines chapter_str s)
  ∧ records s `prefix_of` records (body lines chapter_str s)
  ∧ (seen_recorded s → seen_recorded (body lines chapter_str s)).
Proof.
  unfold body.
  destruct (negb (nonempty (line_at lines (i s))));
    [simpl; split_and!; [lia|done|done]|].
  destruct (is_skipped (line_at lines (i s)));
    [simpl; split_and!; [lia|done|done]|].
  destruct (is_heading_line (line_at lines (i s))).
  { destruct (u_on_heading_facts (line_at lines (i s)) s) as (? & Hr & Hs).
    unfold seen_recorded. rewrite Hr, Hs. done. }
  destruct (is_subheading_line (current_heading s) (line_at lines (i s))).
  { destruct (u_on_subheading_facts (line_at lines (i s)) s) as (? & Hr & Hs).
    unfold seen_recorded. rewrite Hr, Hs. done. }
  pose proof (u_foldl_frame (line_at lines (i s))
                (finditer CODE_PATTERN (line_at lines (i s))) s) as Hf.
  unfold frame in Hf. injection Hf as Hi _ _ _ _.
  cbn [advance i records seen]. split_and!.
  - lia.
  - apply u_foldl_prefix.
  - intros Hs. by apply (u_seen_foldl _ _ s).
Qed.

Lemma u_while_loop_done fuel s :
  length lines ≤ i s → while_loop fuel lines chapter_str s = s.
Proof.
  intros Hi. destruct fuel; simpl; [done|].
  rewrite bool_decide_eq_false_2 by lia. done.
Qed.

Lemma u_while_loop_S fuel s :
  while_loop (S fuel) lines chapter_str s
  = step lines chapter_str (while_loop fuel lines chapter_str s).
Proof.
  revert s; induction fuel as [|fuel IH]; intros s.
  - simpl. unfold step. by case_bool_decide.
  - change (while_loop (S (S fuel)) lines chapter_str s)
      with (if bool_decide (i s < length lines)
            then while_loop (S fuel) lines chapter_str (body lines chapter_str s)
            else s).
    case_bool_decide as Hi.
    + rewrite IH. simpl. by rewrite bool_decide_eq_true_2.
    + simpl. rewrite bool_decide_eq_false_2 by done.
      unfold step. by rewrite bool_decide_eq_false_2.
Qed.

Lemma u_step_facts s :
  records s `prefix_of` records (step lines chapter_str s)
  ∧ (seen_recorded s → seen_recorded (step lines chapter_str s)).
Proof.
  unfold step. case_bool_decide; [|done].
  by destruct (u_body_facts s) as (_ & ? & ?).
Qed.

Lemma u_while_loop_progress fuel s :
  length lines ≤ i (while_loop fuel lines chapter_str s)
  ∨ i s + fuel ≤ i (while_loop fuel lines chapter_str s).
Proof.
  induction fuel as [|fuel IH]; [right; simpl; lia|].
  rewrite u_while_loop_S. unfold step.
  destruct IH as [IH|IH].
  - rewrite bool_decide_eq_false_2 by lia. by left.
  - case_bool_decide; [|left; lia].
    destruct (u_body_facts (while_loop fuel lines chapter_str s)) as (? & _).
    right. lia.
Qed.

Lemma u_while_loop_stable n m s :
  length lines ≤ i s + n → n ≤ m →
  while_loop m lines chapter_str s = while_loop n lines chapter_str s.
Proof.
  intros Hn. induction 1 as [|m Hle IH]; [done|].
  rewrite u_while_loop_S, IH. unfold step.
  rewrite bool_decide_eq_false_2; [done|].
  destruct (u_while_loop_progress n s); lia.
Qed.

Lemma u_while_loop_prefix n m s :
  n ≤ m →
  records (while_loop n lines chapter_str s)
    `prefix_of` records (while_loop m lines chapter_str s).
Proof.
  induction 1 as [|m Hle IH]; [done|].
  rewrite u_while_loop_S. etrans; [apply IH|apply u_step_facts].
Qed.

Lemma u_while_loop_final n r :
  r ∈ records (while_loop n lines chapter_str init_state) →
  r ∈ records (while_loop (length lines) lines chapter_str init_state).
Proof.
  intros Hr. destruct (decide (n ≤ length lines)) as [Hle|Hgt].
  - by eapply elem_of_prefix, u_while_loop_prefix.
  - rewrite <- (u_while_loop_stable (length lines) n); [done|simpl; lia|lia].
Qed.

Lemma u_while_loop_seen fuel :
  seen_recorded (while_loop fuel lines chapter_str init_state).
Proof.
  induction fuel as [|fuel IH].
  - intros k Hk. simpl in Hk. set_solver.
  - rewrite u_while_loop_S. by apply u_step_facts.
Qed.

(** The three cases of the description of a match. *)
Lemma u_match_description_cases idx line m :
  let desc := lstrip (strip (slice_from (m_end m) line)) SEPARATORS in
  let next_line := line_at lines (idx + 1) in
  match_description lines idx line m =
    if nonempty desc then desc
    else if nonempty next_line && negb (is_code_match next_line)
         then next_line else [].
Proof.
  intros desc next_line. unfold match_description. fold desc.
  destruct (nonempty desc) eqn:Hd; [done|].
  assert (desc = []) as Hnil.
  { unfold nonempty in Hd. by apply negb_false_iff, bool_decide_eq_true in Hd. }
  unfold next_line, line_at.
  destruct (lines !! (idx + 1)) as [raw|]; simpl.
  - by destruct (_ && _).
  - done.
Qed.
End u_loop.

(** On a line scanned for codes, every match has its record in the
    result. *)
Lemma u_code_line_records text n fuel m :
  let lines := splitlines text in
  let s := while_loop fuel lines (lit (format_02d n)) init_state in
  let line := line_at lines (i s) in
  i s < length lines →
  nonempty line = true ∧ is_skipped line = false
  ∧ is_heading_line line = false
  ∧ is_subheading_line (current_heading s) line = false →
  m ∈ finditer CODE_PATTERN line →
  candidate lines (lit (format_02d n)) line s m
    ∈ extract_hierarchy_from_text text n.
Proof.
  intros lines s line Hi (H1 & H2 & H3 & H4) Hm.
  unfold extract_hierarchy_from_text.
  apply (u_while_loop_final _ _ (S fuel)).
  rewrite u_while_loop_S. fold lines s. unfold step.
  rewrite bool_decide_eq_true_2 by done.
  unfold body. fold line. rewrite H1, H2, H3, H4. cbn [negb advance records].
  apply u_foldl_present; [|done]. apply u_while_loop_seen.
Qed.
End unicode.

Section description_claim.
Import Unicode.

(** C5: on a line scanned for codes, every match has a record in the result
    whose code is the matched text and whose description is the rest of the
    line after the match, stripped, without its leading spaces, hyphens, en
    and em dashes and colons; when nothing is left of it (so, when the rest
    is empty) the description is the next line, stripped, if that line is
    not empty and does not start with a code, and empty otherwise.  What is
    removed from the rest is a run of white space and separators, and what
    is kept does not start with a separator.  This holds for texts of any
    code points and any content of the character database.  The line
    "0101210000-00-00 Pure-bred breeding animals" gives the code
    "0101210000-00-00" with the description "Pure-bred breeding animals",
    and a bare code line followed by "Other horses" gives the description
    "Other horses". *)
Theorem C5_description_of_a_match :
  (∀ (U : UnicodeData) (text : str) (n : Z) (fuel : nat) (m : Match),
     let lines := splitlines text in
     let s := while_loop fuel lines (lit (format_02d n)) init_state in
     let line := line_at lines (i s) in
     let rest := slice_from (m_end m) line in
     let desc := lstrip (strip rest) SEPARATORS in
     let next_line := line_at lines (i s + 1) in
     i s < length lines →
     nonempty line = true ∧ is_skipped line = false
     ∧ is_heading_line line = false
     ∧ is_subheading_line (current_heading s) line = false →
     m ∈ finditer CODE_PATTERN line →
     (∃ r, r ∈ extract_hierarchy_from_text text n
           ∧ code r = group0 line m
           ∧ description r =
               if nonempty desc then desc
               else if nonempty next_line && negb (is_code_match next_line)
                    then next_line else [])
     ∧ (∃ pre, rest = pre ++ desc
               ∧ forallb is_separator pre = true
               ∧ ∀ c, head desc = Some c → c ∉ SEPARATORS)
     ∧ (rest = [] → desc = []))
  ∧ (∀ U : UnicodeData,
       extract_hierarchy_from_text
         (lit "0101210000-00-00 Pure-bred breeding animals") 1
       = [{| chapter := lit "01"; heading := []; heading_description := [];
             subheading := []; subheading_description := [];
             code := lit "0101210000-00-00";
             description := lit "Pure-bred breeding animals" |}])
  ∧ (∀ U : UnicodeData,
       extract_hierarchy_from_text
         (unlines [lit "0101290000-00-00"; lit "Other horses"]) 1
       = [{| chapter := lit "01"; heading := []; heading_description := [];
             subheading := []; subheading_description := [];
             code := lit "0101290000-00-00";
             description := lit "Other horses" |}]).
Proof.
  split_and!; [|intros U; by vm_compute..].
  intros U text n fuel m lines s line rest desc next_line Hi K Hm.
  split_and!.
  - exists (candidate lines (lit (format_02d n)) line s m). split_and!.
    + by apply u_code_line_records.
    + done.
    + cbn [description candidate]. apply u_match_description_cases.
  - apply u_rest_description_spec.
  - intros ->. done.
Qed.

Lemma C5_description_of_a_match_witness :
  let U := plain_data in
  let text :=
    unlines [lit "0101290000-00-00 " ++ [8211; 8212; 58; 32]%N
               ++ lit "Other horses";
             lit "next line"] in
  let lines := splitlines text in
  let line := line_at lines 0 in
  let m := {| m_start := 0; m_end := 16 |} in
  let rest := slice_from 16 line in
  let desc := lstrip (strip rest) SEPARATORS in
  let next_line := line_at lines 1 in
  desc = lit "Other horses"
  ∧ (∃ r, r ∈ extract_hierarchy_from_text text 1
          ∧ code r = group0 line m
          ∧ description r =
              if nonempty desc then desc
              else if nonempty next_line && negb (is_code_match next_line)
                   then next_line else [])
  ∧ (∃ pre, rest = pre ++ desc
            ∧ forallb is_separator pre = true
            ∧ ∀ c, head desc = Some c → c ∉ SEPARATORS)
  ∧ (rest = [] → desc = []).
Proof.
  intros U text lines line m rest desc next_line.
  split; [by vm_compute|].
  apply (proj1 C5_description_of_a_match U text 1%Z 0 m).
  - simpl. lia.
  - by vm_compute.
  - vm_compute. left.
Defined.
End description_claim.
